(** * GitLens path identity utilities and provider plumbing

  A shallow embedding of [src/system/path.ts] (path normalisation and
  comparison) and of the two small pieces of [src/git/gitProvider.ts]
  that the design document singles out: the cache-key vocabulary and
  [createSubProviderProxyForRepo].

  JavaScript strings are sequences of code units.  The embedding uses
  [string], whose characters are the 256 code units of Latin-1; on
  these code units [\w] and [\d] are modelled exactly.
  [String.prototype.toLowerCase] belongs to the engine: it can change
  the length of a string and the lower case of a character can depend
  on its neighbours, so the functions that call it on a whole string
  take it as a parameter, and nothing is assumed of it but what a
  statement says.  The platform flags [isWindows] and [isLinux] of
  [@env/platform] and the functions of the [vscode] and [path] packages
  are not part of the repository and are parameters too. *)

From Stdlib Require Import String Ascii List Bool Arith NArith ZArith Lia.
From stdpp Require Import gmap strings.

Import ListNotations.
Local Open Scope string_scope.
Local Open Scope bool_scope.

(** ** Characters *)

Module Char.

Definition code (c : ascii) : N := N_of_ascii c.

Definition between (lo hi : N) (c : ascii) : bool :=
  ((lo <=? code c) && (code c <=? hi))%N.

(** [const slash = 47] *)
Definition slash : ascii := "/".
Definition backslash : ascii := "\".
Definition colon : ascii := ":".

Definition isSlash (c : ascii) : bool := Ascii.eqb c slash.

(** [[A-Z]] *)
Definition isUpperAZ : ascii -> bool := between 65 90.
(** [[a-z]] *)
Definition isLowerAZ : ascii -> bool := between 97 122.
(** [[a-zA-Z]] *)
Definition isLetter (c : ascii) : bool := isUpperAZ c || isLowerAZ c.
(** [\d] *)
Definition isDigit : ascii -> bool := between 48 57.
(** [\w], that is [[A-Za-z0-9_]] *)
Definition isWord (c : ascii) : bool :=
  isLetter c || isDigit c || Ascii.eqb c "_".

(** The code units below 256 that [String.prototype.toLowerCase]
    changes: [A-Z], and the Latin-1 capitals U+00C0..U+00DE except the
    multiplication sign U+00D7.  Each moves up by 32. *)
Definition hasLower (c : ascii) : bool :=
  isUpperAZ c || between 192 214 c || between 216 222 c.

Definition toLowerCase (c : ascii) : ascii :=
  if hasLower c then ascii_of_N (code c + 32) else c.

End Char.

(** ** Strings *)

Module Str.

Fixpoint map (f : ascii -> ascii) (s : string) : string :=
  match s with
  | EmptyString => EmptyString
  | String c r => String (f c) (map f r)
  end.

(** The lower-casing of a string of Latin-1 code units, character by
    character.  It is one lower-casing function, used in examples and to
    say that two strings are equal up to letter case; the functions of
    [path.ts] take the engine's [toLowerCase] as a parameter. *)
Definition lowerLatin1 : string -> string := map Char.toLowerCase.

(** [s[s.length - 1]], [None] for the empty string *)
Fixpoint last (s : string) : option ascii :=
  match s with
  | EmptyString => None
  | String c EmptyString => Some c
  | String _ r => last r
  end.

(** [s.slice(0, -1)] *)
Fixpoint init (s : string) : string :=
  match s with
  | EmptyString => EmptyString
  | String _ EmptyString => EmptyString
  | String c r => String c (init r)
  end.

(** [s.charCodeAt(0) === slash]; [charCodeAt] is [NaN] on [""] *)
Definition startsWithSlash (s : string) : bool :=
  match s with
  | String c _ => Char.isSlash c
  | EmptyString => false
  end.

(** [s.charCodeAt(s.length - 1) === slash] *)
Definition endsWithSlash (s : string) : bool :=
  match last s with
  | Some c => Char.isSlash c
  | None => false
  end.

(** [s.startsWith(p)] *)
Fixpoint startsWith (p s : string) : bool :=
  match p with
  | EmptyString => true
  | String a p' =>
      match s with
      | String b s' => Ascii.eqb a b && startsWith p' s'
      | EmptyString => false
      end
  end.

(** [s.substr(n)] for [0 <= n] *)
Fixpoint drop (n : nat) (s : string) : string :=
  match n with
  | O => s
  | S n' =>
      match s with
      | EmptyString => EmptyString
      | String _ r => drop n' r
      end
  end.

(** [s.split('/').length] *)
Fixpoint splitCount (s : string) : nat :=
  match s with
  | EmptyString => 1
  | String c r => if Char.isSlash c then S (splitCount r) else splitCount r
  end.

(** the longest prefix of [s] whose characters satisfy [p], and the rest *)
Fixpoint span (p : ascii -> bool) (s : string) : string * string :=
  match s with
  | EmptyString => (EmptyString, EmptyString)
  | String c r =>
      if p c then let '(a, b) := span p r in (String c a, b)
      else (EmptyString, s)
  end.

End Str.

(** ** Regular expressions of [path.ts]

    Each regular expression is anchored at the start of the string and
    is read off as a recogniser.  None carries the [g] flag, so [test]
    and [exec] keep no state between calls. *)

Module Regex.

(** [[\w+.-]] *)
Definition isSchemeChar (c : ascii) : bool :=
  Char.isWord c || Ascii.eqb c "+" || Ascii.eqb c "." || Ascii.eqb c "-".

(** [hasSchemeRegex = /^([a-zA-Z][\w+.-]+):/], returning capture group 1.
    The colon is not in the class [[\w+.-]], so the greedy run under [+]
    can only be followed by the colon when it is the whole run. *)
Definition hasSchemeRegex_exec (s : string) : option string :=
  match s with
  | String c r =>
      if Char.isLetter c then
        match Str.span isSchemeChar r with
        | (String _ _ as run, String d _) =>
            if Ascii.eqb d Char.colon then Some (String c run) else None
        | _ => None
        end
      else None
  | EmptyString => None
  end.

Definition hasSchemeRegex_test (s : string) : bool :=
  match hasSchemeRegex_exec s with
  | Some _ => true
  | None => false
  end.

(** [[/|\\]] *)
Definition isVslsSep (c : ascii) : bool :=
  Ascii.eqb c "/" || Ascii.eqb c "|" || Ascii.eqb c "\".

(** [(?:[/|\\]|$)] *)
Definition sepOrEnd (s : string) : bool :=
  match s with
  | EmptyString => true
  | String c _ => isVslsSep c
  end.

(** [(?:\d+?|external)(?:[/|\\]|$)]: a digit is neither a separator nor
    the end, so the lazy run under [+?] grows to the whole run of digits
    before the tail can match. *)
Definition vslsMarker (s : string) : bool :=
  match Str.span Char.isDigit s with
  | (String _ _, rest) => sepOrEnd rest
  | (EmptyString, _) =>
      Str.startsWith "external" s && sepOrEnd (Str.drop 8 s)
  end.

(** [vslsHasPrefixRegex = /^[/|\\]~(?:\d+?|external)(?:[/|\\]|$)/]; the
    source declares [vslsRootUriRegex] with the same pattern. *)
Definition vslsHasPrefixRegex_test (s : string) : bool :=
  match s with
  | String c0 (String t r) =>
      isVslsSep c0 && Ascii.eqb t "~" && vslsMarker r
  | _ => false
  end.

Definition vslsRootUriRegex_test : string -> bool := vslsHasPrefixRegex_test.

End Regex.

(** ** [vscode.Uri]

    Only the components that [path.ts] reads.  [Uri.parse] and the
    [fsPath] getter belong to the editor API and are parameters of the
    functions that call them. *)

Record Uri : Type := mkUri {
  scheme : string;
  authority : string;
  path : string;
  query : string;
  fragment : string
}.

(** [uri.with({ path: p })] *)
Definition Uri_with_path (u : Uri) (p : string) : Uri :=
  {| scheme := scheme u; authority := authority u; path := p;
     query := query u; fragment := fragment u |}.

(** A value of type [string | Uri] *)
Inductive PathOrUri : Type :=
| OfString (s : string)
| OfUri (u : Uri).

(** [typeof pathOrUri === 'string' ? pathOrUri : pathOrUri.path] *)
Definition pathOf (p : PathOrUri) : string :=
  match p with
  | OfString s => s
  | OfUri u => path u
  end.

(** ** [path.ts] *)

(** [export function getScheme(path)] *)
Definition getScheme (path : string) : option string :=
  Regex.hasSchemeRegex_exec path.

(** [export function maybeUri(path)] *)
Definition maybeUri (path : string) : bool :=
  Regex.hasSchemeRegex_test path.

(** [export function hasVslsPrefix(path)] *)
Definition hasVslsPrefix (path : string) : bool :=
  Regex.vslsHasPrefixRegex_test path.

(** [export function isVslsRoot(path)] *)
Definition isVslsRoot (path : string) : bool :=
  Regex.vslsRootUriRegex_test path.

(** [path.replace(pathNormalizeRegex, '/')] with
    [pathNormalizeRegex = /\/g] *)
Definition replaceBackslashes : string -> string :=
  Str.map (fun c => if Ascii.eqb c Char.backslash then Char.slash else c).

(** The look-ahead and the capture of
    [driveLetterNormalizeRegex = /(?<=^\/?)([A-Z])(?=:\/)/] at the head
    of [s]: a capital letter followed by [":/"]. *)
Definition driveAt (s : string) : bool :=
  match s with
  | String d (String c1 (String c2 _)) =>
      Char.isUpperAZ d && Ascii.eqb c1 Char.colon && Char.isSlash c2
  | _ => false
  end.

(** [d => d.toLowerCase()] applied to the first character *)
Definition lowerHead (s : string) : string :=
  match s with
  | String d r => String (Char.toLowerCase d) r
  | EmptyString => EmptyString
  end.

(** [path.replace(driveLetterNormalizeRegex, d => d.toLowerCase())].  The
    look-behind [(?<=^\/?)] admits a match at offset 0, and at offset 1
    when the string starts with a slash.  There is no [g] flag: the first
    match only is replaced. *)
Definition normalizeDriveLetter (s : string) : string :=
  if driveAt s then lowerHead s
  else
    match s with
    | String c r =>
        if Char.isSlash c && driveAt r then String c (lowerHead r) else s
    | EmptyString => s
    end.

Section Platform.

(** [isWindows] and [isLinux] of [@env/platform] *)
Variable isWindows : bool.
Variable isLinux : bool.

(** [String.prototype.toLowerCase], applied to a whole string *)
Variable toLowerCase : string -> string.

(** [export function normalizePath(path)] *)
Definition normalizePath (path : string) : string :=
  match path with
  | EmptyString => path
  | _ =>
      let path := replaceBackslashes path in
      let path := if Str.endsWithSlash path then Str.init path else path in
      if isWindows then normalizeDriveLetter path else path
  end.

(** [s.charCodeAt(0) === slash ? s : `/${s}`] *)
Definition ensureLeadingSlash (s : string) : string :=
  if Str.startsWithSlash s then s else String Char.slash s.

(** [s.charCodeAt(s.length - 1) === slash ? s : `${s}/`] *)
Definition ensureTrailingSlash (s : string) : string :=
  if Str.endsWithSlash s then s else s ++ "/".

(** The [for] loop of [commonBaseIndex], entered at position [i] with the
    remainders of [s1] and [s2] from that position on.  [s2[i]] is
    [undefined] past the end of [s2], which differs from every
    character. *)
Fixpoint commonBaseLoop (delimiter s1 s2 : string) (i index : nat) : nat :=
  match s1 with
  | EmptyString => index
  | String char r1 =>
      match s2 with
      | String c2 r2 =>
          if Ascii.eqb char c2 then
            commonBaseLoop delimiter r1 r2 (S i)
              (if String.eqb (String char EmptyString) delimiter
               then i else index)
          else index
      | EmptyString => index
      end
  end.

(** [ignoreCase ?? !isLinux] *)
Definition ignoresCase (ignoreCase : option bool) : bool :=
  match ignoreCase with
  | Some b => b
  | None => negb isLinux
  end.

(** [export function commonBaseIndex(s1, s2, delimiter, ignoreCase?)] *)
Definition commonBaseIndex (s1 s2 delimiter : string)
    (ignoreCase : option bool) : nat :=
  match s1, s2 with
  | EmptyString, _ | _, EmptyString => 0
  | _, _ =>
      let fold := ignoresCase ignoreCase in
      let s1 := if fold then toLowerCase s1 else s1 in
      let s2 := if fold then toLowerCase s2 else s2 in
      commonBaseLoop delimiter s1 s2 0 0
  end.

(** [export function isDescendent(pathOrUri, base)] *)
Definition isDescendent (pathOrUri base : PathOrUri) : bool :=
  let base :=
    match base with
    | OfString b => OfString (ensureLeadingSlash (normalizePath b))
    | OfUri _ => base
    end in
  let pathOrUri :=
    match pathOrUri with
    | OfString p => OfString (ensureLeadingSlash (normalizePath p))
    | OfUri _ => pathOrUri
    end in
  match base, pathOrUri with
  | OfString b, _ =>
      Nat.eqb (String.length b) 1
      || Str.startsWith (ensureTrailingSlash b) (pathOf pathOrUri)
  | OfUri b, OfString p =>
      Nat.eqb (String.length (path b)) 1
      || Str.startsWith (ensureTrailingSlash (path b)) p
  | OfUri b, OfUri u =>
      String.eqb (scheme b) (scheme u)
      && String.eqb (authority b) (authority u)
      && (Nat.eqb (String.length (path b)) 1
          || Str.startsWith (ensureTrailingSlash (path b)) (path u))
  end.

(** The second conjunct of both branches of [isChild]:
    [p.substr(b.length + (b.charCodeAt(b.length - 1) === slash ? 0 : 1))
      .split('/').length === 1] *)
Definition oneSegmentBeyond (p b : string) : bool :=
  Nat.eqb
    (Str.splitCount
       (Str.drop (String.length b + (if Str.endsWithSlash b then 0 else 1)) p))
    1.

(** [export function isChild(pathOrUri, base)] *)
Definition isChild (pathOrUri base : PathOrUri) : bool :=
  match base with
  | OfString b =>
      let b := ensureLeadingSlash b in
      isDescendent pathOrUri (OfString b)
      && oneSegmentBeyond (pathOf pathOrUri) b
  | OfUri b =>
      isDescendent pathOrUri base
      && oneSegmentBeyond (pathOf pathOrUri) (path b)
  end.

(** [isAbsolute] of the [path] package *)
Variable path_isAbsolute : string -> bool.

(** [export function isAbsolute(path)] *)
Definition isAbsolute (path : string) : bool :=
  negb (maybeUri path) && path_isAbsolute path.

(** [Uri.parse] and the [fsPath] getter of [vscode.Uri] *)
Variable Uri_parse : string -> Uri.
Variable Uri_fsPath : Uri -> string.

(** [`/~0${p.charCodeAt(0) === slash ? p : `/${p}`}`] *)
Definition vslsPrefixed (p : string) : string :=
  "/~0" ++ ensureLeadingSlash p.

(** [export function addVslsPrefixIfNeeded(pathOrUri)] *)
Definition addVslsPrefixIfNeeded (pathOrUri : PathOrUri) : PathOrUri :=
  let pathOrUri :=
    match pathOrUri with
    | OfString s => if maybeUri s then OfUri (Uri_parse s) else pathOrUri
    | OfUri _ => pathOrUri
    end in
  match pathOrUri with
  | OfString s =>
      if hasVslsPrefix s then pathOrUri
      else OfString (vslsPrefixed (normalizePath s))
  | OfUri u =>
      let path := Uri_fsPath u in
      if hasVslsPrefix path then pathOrUri
      else OfUri (Uri_with_path u (vslsPrefixed (normalizePath path)))
  end.

End Platform.

(** ** [gitProvider.ts]: cache keys *)

(** [export type GitCaches = 'branches' | 'contributors' | ...] *)
Inductive GitCaches : Type :=
| branches
| contributors
| providers
| remotes
| stashes
| status
| tags
| worktrees.

(** The string literal behind each member of the union *)
Definition GitCaches_literal (c : GitCaches) : string :=
  match c with
  | branches => "branches"
  | contributors => "contributors"
  | providers => "providers"
  | remotes => "remotes"
  | stashes => "stashes"
  | status => "status"
  | tags => "tags"
  | worktrees => "worktrees"
  end.

(** The members of the union, in the order of the declaration *)
Definition GitCaches_members : list GitCaches :=
  [branches; contributors; providers; remotes; stashes; status; tags;
   worktrees].

(** [export type GitRepositoryCaches =
      Extract<GitCaches, 'branches' | 'remotes'>]: the members of
    [GitCaches] assignable to ['branches' | 'remotes'] *)
Definition GitRepositoryCaches_members : list GitCaches :=
  List.filter
    (fun c =>
       String.eqb (GitCaches_literal c) "branches"
       || String.eqb (GitCaches_literal c) "remotes")
    GitCaches_members.

(** [export const gitRepositoryCacheKeys =
      new Set<GitRepositoryCaches>(['branches', 'remotes'])] *)
Definition gitRepositoryCacheKeys : gset string :=
  {[ "branches"; "remotes" ]}.

(** ** [gitProvider.ts]: [createSubProviderProxyForRepo]

    A sub-provider is an object whose properties hold plain values or
    functions.  A function of the sub-provider reads and changes the
    world of the extension; a call of it is recorded, with its receiver
    and its arguments, in a trace kept next to the world. *)

Module SubProvider.

(** Values that are not functions *)
Inductive Val : Type :=
| VUndefined
| VBoolean (b : bool)
| VNumber (z : Z)
| VString (s : string)
| VObject (ref : nat).

Inductive Outcome : Type :=
| Return (v : Val)
| Throw (v : Val).

(** One call of a function of the sub-provider: the property it is
    stored under, the receiver [this] and the arguments *)
Record Call : Type := mkCall {
  callee : string;
  receiver : Val;
  arguments : list Val
}.

Section World.

Variable World : Type.

Record State : Type := mkState {
  world : World;
  calls : list Call
}.

(** The body of a function of the sub-provider *)
Definition Body : Type := Val -> list Val -> World -> Outcome * World.

(** Function values: a function stored on the sub-provider, or the arrow
    function [(...args) => value.call(target, rp, ...args)] that the
    [get] trap builds around a function [value] *)
Inductive Fn : Type :=
| Native (name : string) (body : Body)
| Bound (value : Fn) (target : Val) (rp : string).

(** What reading a property gives *)
Inductive Member : Type :=
| Data (v : Val)
| Function (f : Fn).

(** An object: its identity and its properties *)
Record Obj : Type := mkObj {
  self : Val;
  props : gmap string Member
}.

(** [target[prop]]: a missing property reads as [undefined] *)
Definition getProp (target : Obj) (prop : string) : Member :=
  match props target !! prop with
  | Some m => m
  | None => Data VUndefined
  end.

(** [f.call(this, ...args)].  An arrow function ignores the receiver it
    is called with. *)
Fixpoint callFn (f : Fn) (this : Val) (args : list Val) (st : State)
    : Outcome * State :=
  match f with
  | Native name body =>
      let '(out, w) := body this args (world st) in
      (out, {| world := w;
               calls := calls st ++ [mkCall name this args] |})
  | Bound value target rp => callFn value target (VString rp :: args) st
  end.

(** The error of calling something that is not a function *)
Definition TypeError : Val := VString "TypeError".

(** [o.m(...args)] for an object-like [o] given by its property read
    [get] and its identity [this] *)
Definition invoke (get : string -> Member) (this : Val) (m : string)
    (args : list Val) (st : State) : Outcome * State :=
  match get m with
  | Function f => callFn f this args st
  | Data _ => (Throw TypeError, st)
  end.

(** The [get] trap of the handler in [createSubProviderProxyForRepo] *)
Definition proxyGet (target : Obj) (rp : string) (prop : string) : Member :=
  let value := getProp target prop in
  match value with
  | Function f => Function (Bound f (self target) rp)
  | Data _ => value
  end.

(** [createSubProviderProxyForRepo(target, rp)]: the proxy is a new
    object, with identity [proxy], whose property reads go through the
    [get] trap *)
Record Proxy : Type := mkProxy {
  proxySelf : Val;
  proxyRead : string -> Member
}.

Definition createSubProviderProxyForRepo (proxy : Val) (target : Obj)
    (rp : string) : Proxy :=
  {| proxySelf := proxy; proxyRead := proxyGet target rp |}.

(** [bound.m(...args)] *)
Definition invokeProxy (p : Proxy) (m : string) (args : list Val)
    (st : State) : Outcome * State :=
  invoke (proxyRead p) (proxySelf p) m args st.

(** [subProvider.m(...args)] *)
Definition invokeObj (o : Obj) (m : string) (args : list Val)
    (st : State) : Outcome * State :=
  invoke (getProp o) (self o) m args st.

End World.

Arguments mkState {World} _ _.
Arguments world {World} _.
Arguments calls {World} _.
Arguments Native {World} _ _.
Arguments Bound {World} _ _ _.
Arguments Data {World} _.
Arguments Function {World} _.
Arguments mkObj {World} _ _.
Arguments self {World} _.
Arguments props {World} _.
Arguments getProp {World} _ _.
Arguments callFn {World} _ _ _ _.
Arguments invoke {World} _ _ _ _ _.
Arguments proxyGet {World} _ _ _.
Arguments mkProxy {World} _ _.
Arguments proxySelf {World} _.
Arguments proxyRead {World} _.
Arguments createSubProviderProxyForRepo {World} _ _ _.
Arguments invokeProxy {World} _ _ _ _.
Arguments invokeObj {World} _ _ _ _.

End SubProvider.

(** ** [path.ts], the remaining functions *)

(** [s.substring(0, n)] for [0 <= n]; past the end it gives all of [s] *)
Fixpoint substring0 (n : nat) (s : string) : string :=
  match n with
  | O => EmptyString
  | S n' =>
      match s with
      | EmptyString => EmptyString
      | String c r => String c (substring0 n' r)
      end
  end.

Section PathFunctions.

Variable isWindows : bool.
Variable isLinux : bool.

(** [String.prototype.toLowerCase], applied to a whole string *)
Variable toLowerCase : string -> string.

(** [Uri.parse(s, true)], and the [fsPath] getter and [toString] of
    [vscode.Uri] *)
Variable Uri_parse_strict : string -> Uri.
Variable Uri_fsPath : Uri -> string.
Variable Uri_toString : Uri -> string.

(** [DocumentSchemes.File] of [../constants] *)
Variable DocumentSchemes_File : string.

(** [dirname] and [basename] of the [path] package *)
Variable path_dirname : string -> string.
Variable path_basename : string -> string.

(** [export function commonBase(s1, s2, delimiter, ignoreCase?)] *)
Definition commonBase (s1 s2 delimiter : string) (ignoreCase : option bool)
    : option string :=
  let index :=
    commonBaseIndex isLinux toLowerCase s1 s2 delimiter ignoreCase in
  if Nat.ltb 0 index then Some (substring0 (index + 1) s1) else None.

(** [export function getBestPath(uri)] *)
Definition getBestPath (uri : Uri) : string :=
  normalizePath isWindows
    (if String.eqb (scheme uri) DocumentSchemes_File then Uri_fsPath uri
     else path uri).

(** [export function isFolderGlob(path)] *)
Definition isFolderGlob (path : string) : bool :=
  String.eqb (path_basename path) "*".

(** [hasSchemeRegex.test(s) ? Uri.parse(s, true).path : normalizePath(s)],
    the first step of [relative] and of [splitPath] on each path *)
Definition pathPart (s : string) : string :=
  if Regex.hasSchemeRegex_test s then path (Uri_parse_strict s)
  else normalizePath isWindows s.

(** [export function relative(from, to, ignoreCase?)] *)
Definition relative (from to : string) (ignoreCase : option bool) : string :=
  let from := pathPart from in
  let to := pathPart to in
  let index :=
    commonBaseIndex isLinux toLowerCase (to ++ "/") (from ++ "/") "/"
      ignoreCase in
  if Nat.ltb 0 index then Str.drop (index + 1) to else to.

(** [export function splitPath(path, repoPath, splitOnBaseIfMissing,
    ignoreCase?)], returning the pair [[path, repoPath]].  An absent and an
    empty [repoPath] are both falsy. *)
Definition splitPath (path : string) (repoPath : option string)
    (splitOnBaseIfMissing : bool) (ignoreCase : option bool)
    : string * string :=
  match repoPath with
  | Some (String _ _ as repoPath) =>
      let path := pathPart path in
      let repoUri :=
        if Regex.hasSchemeRegex_test repoPath
        then Some (Uri_parse_strict repoPath) else None in
      let repoPath :=
        match repoUri with
        | Some u => getBestPath u
        | None => normalizePath isWindows repoPath
        end in
      let index :=
        commonBaseIndex isLinux toLowerCase (repoPath ++ "/") (path ++ "/")
          "/" ignoreCase in
      let '(path, repoPath) :=
        if Nat.ltb 0 index then (Str.drop (index + 1) path, substring0 index path)
        else if Str.startsWithSlash path then (Str.drop 1 path, repoPath)
        else (path, repoPath) in
      let repoPath :=
        match repoUri with
        | Some u => Uri_toString (Uri_with_path u repoPath)
        | None => repoPath
        end in
      (path, repoPath)
  | _ =>
      (normalizePath isWindows
         (if splitOnBaseIfMissing then path_basename path else path),
       normalizePath isWindows
         (if splitOnBaseIfMissing then path_dirname path else EmptyString))
  end.

End PathFunctions.

(** ** [views/nodes]: the clipboard text of a commit

    [CommitNode.toClipboard] and [CommitFileNode.toClipboard].  Of a
    commit only [shortSha] and [message] are read, of a file only
    [fileName].  [GlyphChars.Space] and [GlyphChars.Ellipsis] of
    [../../constants] are parameters. *)

Module Views.

Definition newline : ascii := "010"%char.

(** [s.indexOf(c)], counted from [i]; [-1] when [c] does not occur *)
Fixpoint indexOfFrom (c : ascii) (s : string) (i : Z) : Z :=
  match s with
  | EmptyString => (-1)%Z
  | String x r => if Ascii.eqb x c then i else indexOfFrom c r (i + 1)%Z
  end.

Definition indexOf (c : ascii) (s : string) : Z := indexOfFrom c s 0%Z.

Record GitLogCommit : Type := mkCommit {
  shortSha : string;
  message : string
}.

Section Glyphs.

Variable GlyphChars_Space : string.
Variable GlyphChars_Ellipsis : string.

(** [CommitNode.toClipboard()] *)
Definition CommitNode_toClipboard (commit : GitLogCommit) : string :=
  let message := message commit in
  let index := indexOf newline message in
  let message :=
    if negb (Z.eqb index (-1))
    then substring0 (Z.to_nat index) message
         ++ GlyphChars_Space ++ GlyphChars_Ellipsis
    else message in
  shortSha commit ++ ": " ++ message.

(** [CommitFileNode.toClipboard()]; [displayAsCommit] is an optional
    flag of the node's options, [fileName] is [this.file.fileName] *)
Definition CommitFileNode_toClipboard (displayAsCommit : option bool)
    (fileName : string) (commit : GitLogCommit) : string :=
  match displayAsCommit with
  | Some true =>
      let message := message commit in
      let index := indexOf newline message in
      let message :=
        if negb (Z.eqb index (-1))
        then substring0 (Z.to_nat index) message
             ++ GlyphChars_Space ++ GlyphChars_Ellipsis
        else message in
      shortSha commit ++ ": " ++ message
  | _ => fileName
  end.

End Glyphs.

End Views.

(** ** Vocabulary of the statements *)

(** A separator, before normalisation: a slash or a backslash *)
Definition isSeparator (c : ascii) : bool :=
  Char.isSlash c || Ascii.eqb c Char.backslash.

(** [p] ends in two separators *)
Fixpoint endsWithTwoSeparators (p : string) : bool :=
  match p with
  | EmptyString => false
  | String a r =>
      match r with
      | String b EmptyString => isSeparator a && isSeparator b
      | _ => endsWithTwoSeparators r
      end
  end.

(** Two characters compare equal, exactly or ignoring case *)
Definition sameChar (fold : bool) (x y : ascii) : bool :=
  if fold then Ascii.eqb (Char.toLowerCase x) (Char.toLowerCase y)
  else Ascii.eqb x y.

(** [a] and [b] still match at index [i]: they agree, under [eqc], at
    every index up to and including [i] *)
Definition matchUpTo (eqc : ascii -> ascii -> bool) (a b : string) (i : nat)
    : Prop :=
  forall j, j <= i ->
    exists x y, String.get j a = Some x /\ String.get j b = Some y
                /\ eqc x y = true.

(** [i] is a position of the delimiter [d] in [a] at which [a] and [b]
    still match *)
Definition delimiterMatch (fold : bool) (d : ascii) (a b : string) (i : nat)
    : Prop :=
  String.get i a = Some d /\ matchUpTo (sameChar fold) a b i.

(** A position of [d] in [s1] within the part where [s1] and [s2] hold
    the same characters *)
Definition exactMatch (d : ascii) (s1 s2 : string) (j : nat) : Prop :=
  String.get j s1 = Some d /\ matchUpTo Ascii.eqb s1 s2 j.

(** The copy of [s] that the loop of [commonBaseIndex] reads: [s]
    lower-cased by [lower] when the comparison ignores case, [s] itself
    otherwise *)
Definition foldCase (lower : string -> string) (fold : bool) (s : string)
    : string :=
  if fold then lower s else s.

(** [i] is a position of the delimiter [d] in the copy of [a] that is
    compared, at which the two copies that are compared still match *)
Definition comparedDelimiterMatch (lower : string -> string) (fold : bool)
    (d : ascii) (a b : string) (i : nat) : Prop :=
  exactMatch d (foldCase lower fold a) (foldCase lower fold b) i.

(** The comparison reads [s] character by character through [f]: the
    copy of [s] that is compared is [s] with [f] applied to each
    character.  With case not ignored that holds of the identity; with
    case ignored it says that [lower] neither adds nor drops a character
    of [s] and maps each one on its own. *)
Definition comparedThrough (lower : string -> string) (fold : bool)
    (f : ascii -> ascii) (s : string) : Prop :=
  foldCase lower fold s = Str.map f s.

(** [f] leaves the character [d] alone and takes no other character to
    it *)
Definition keeps (f : ascii -> ascii) (d : ascii) : Prop :=
  forall c, f c = d <-> c = d.

(** [i] is a position of the delimiter [d] in [a] at which [a] and [b]
    still match, two characters matching when [f] takes them to the same
    character *)
Definition delimiterMatchThrough (f : ascii -> ascii) (d : ascii)
    (a b : string) (i : nat) : Prop :=
  String.get i a = Some d
  /\ matchUpTo (fun x y => Ascii.eqb (f x) (f y)) a b i.

(** A slash boundary that [s1 ++ "/"] and [s2 ++ "/"] share beyond their
    first character *)
Definition sharedAt (f : ascii -> ascii) (s1 s2 : string) (i : nat) : Prop :=
  0 < i /\ delimiterMatchThrough f Char.slash (s1 ++ "/") (s2 ++ "/") i.

(** [r] is the last index that satisfies [P], or 0 when none does *)
Definition lastOr0 (P : nat -> Prop) (r : nat) : Prop :=
  (P r /\ forall i, P i -> i <= r) \/ (r = 0 /\ forall i, ~ P i).

(** A character without case: lower-casing leaves it alone and takes no
    other character to it *)
Definition caseless (d : ascii) : Prop :=
  forall c, Char.toLowerCase c = d <-> c = d.

(** The path of an argument as [isDescendent] compares it: a string is
    normalised and given a leading slash, a [Uri] gives its [path] *)
Definition comparedPath (isWindows : bool) (x : PathOrUri) : string :=
  match x with
  | OfString s => ensureLeadingSlash (normalizePath isWindows s)
  | OfUri u => path u
  end.

(** [s] starts with [p] *)
Definition isPrefix (p s : string) : Prop := exists t, s = p ++ t.

(** When both arguments are [Uri]s, their schemes and their authorities
    are equal *)
Definition sameOrigin (x y : PathOrUri) : Prop :=
  match x, y with
  | OfUri u, OfUri v => scheme u = scheme v /\ authority u = authority v
  | _, _ => True
  end.

(** [isDescendent] as the design document words it: the path starts with
    the base followed by a separator, or the base is the root *)
Definition descendentAsStated (isWindows : bool) (p b : PathOrUri) : Prop :=
  sameOrigin b p
  /\ (isPrefix (comparedPath isWindows b ++ "/") (comparedPath isWindows p)
      \/ comparedPath isWindows b = "/").

(** [isDescendent] as the code decides it: the base gets a separator at
    its end only when it does not end in one, and the root is a path of
    one character *)
Definition descends (isWindows : bool) (p b : PathOrUri) : Prop :=
  sameOrigin b p
  /\ (String.length (comparedPath isWindows b) = 1
      \/ isPrefix (ensureTrailingSlash (comparedPath isWindows b))
           (comparedPath isWindows p)).

(** Every character of [s] satisfies [p] *)
Fixpoint allChars (p : ascii -> bool) (s : string) : bool :=
  match s with
  | EmptyString => true
  | String c r => p c && allChars p r
  end.

(** A leading [scheme:] token: a letter, then one or more characters
    that are word characters, [+], [.] or [-], then a colon *)
Definition hasSchemeToken (p : string) : Prop :=
  exists (c : ascii) (run rest : string),
    p = String c run ++ String Char.colon rest
    /\ Char.isLetter c = true
    /\ run <> EmptyString
    /\ allChars Regex.isSchemeChar run = true.

(** [s] holds no backslash: the global replacement leaves it alone *)
Definition noBackslash (s : string) : Prop := replaceBackslashes s = s.

(** A path in the form [normalizePath] and the leading-slash rule leave
    alone: a leading slash, no backslash, no trailing slash, and on a
    drive-letter platform a drive letter in lower case *)
Definition canonical (isWindows : bool) (s : string) : Prop :=
  Str.startsWithSlash s = true
  /\ noBackslash s
  /\ Str.endsWithSlash s = false
  /\ (isWindows = true -> normalizeDriveLetter s = s).

(** [t] is one path segment: it holds no slash *)
Definition oneSegment (t : string) : Prop :=
  allChars (fun c => negb (Char.isSlash c)) t = true.

(** The strings that [vslsHasPrefixRegex] describes: a separator, a
    tilde, then digits or the word [external], then a separator or the
    end *)
Definition vslsShape (p : string) : Prop :=
  exists (c0 : ascii) (marker tail : string),
    p = String c0 (String "~" (marker ++ tail))
    /\ Regex.isVslsSep c0 = true
    /\ (marker = "external"
        \/ (marker <> EmptyString /\ allChars Char.isDigit marker = true))
    /\ Regex.sepOrEnd tail = true.

(** [s] holds no line feed *)
Definition singleLine (s : string) : bool :=
  allChars (fun c => negb (Ascii.eqb c Views.newline)) s.

(** The first line of [s]: what comes before its first line feed *)
Definition firstLine (s : string) : string :=
  fst (Str.span (fun c => negb (Ascii.eqb c Views.newline)) s).

(** *** Sample values *)

(** A lower-casing that writes two characters for one: ["i."] for each
    ["I"], the way [toLowerCase] writes U+0069 U+0307 for U+0130; the
    other characters are lower-cased one by one *)
Fixpoint lowerTwoForOne (s : string) : string :=
  match s with
  | EmptyString => EmptyString
  | String c r =>
      if Ascii.eqb c "I" then String "i" (String "." (lowerTwoForOne r))
      else String (Char.toLowerCase c) (lowerTwoForOne r)
  end.

(** What [Uri.parse] gives on ["file:///repo"] and on
    ["notes:2021/a.txt"]; on a POSIX host the [fsPath] of these is their
    [path] *)
Definition sampleParse (s : string) : Uri :=
  if String.eqb s "file:///repo" then mkUri "file" "" "/repo" "" ""
  else mkUri "notes" "" "2021/a.txt" "" "".

(** A sub-provider with one function, [getBranch], that counts its calls
    in the world and returns its second argument, and one plain member *)
Definition sampleTarget : SubProvider.Obj nat :=
  SubProvider.mkObj (SubProvider.VObject 1)
    (<[ "getBranch" :=
          SubProvider.Function
            (SubProvider.Native "getBranch"
               (fun _ args w =>
                  (SubProvider.Return (List.nth 1 args SubProvider.VUndefined),
                   S w))) ]>
       (<[ "kind" := SubProvider.Data (SubProvider.VString "branches") ]> ∅)).

(** * Properties *)

(** ** Characters and strings *)

Lemma isUpperAZ_toLowerCase (d : ascii) :
  Char.isUpperAZ d = true ->
  Char.isUpperAZ (Char.toLowerCase d) = false
  /\ Char.isSlash (Char.toLowerCase d) = false
  /\ Ascii.eqb (Char.toLowerCase d) Char.backslash = false.
Proof.
  destruct d as [[] [] [] [] [] [] [] []]; vm_compute; intuition congruence.
Qed.

Lemma isSlash_eq (c : ascii) : Char.isSlash c = true -> c = Char.slash.
Proof. unfold Char.isSlash. apply Ascii.eqb_eq. Qed.

Lemma slash_not_upper : Char.isUpperAZ Char.slash = false.
Proof. reflexivity. Qed.

(** ** [normalizePath] *)

Lemma replaceBackslashes_noBackslash (s : string) :
  noBackslash (replaceBackslashes s).
Proof.
  unfold noBackslash, replaceBackslashes.
  induction s as [|c r IH]; simpl; [reflexivity|].
  rewrite IH. f_equal.
  destruct (Ascii.eqb c Char.backslash) eqn:E; [reflexivity|].
  now rewrite E.
Qed.

Lemma noBackslash_cons (c : ascii) (r : string) :
  noBackslash (String c r) <->
  Ascii.eqb c Char.backslash = false /\ noBackslash r.
Proof.
  unfold noBackslash, replaceBackslashes; simpl. split.
  - intros H. injection H as Hc Hr. split; [|exact Hr].
    destruct (Ascii.eqb c Char.backslash) eqn:E; [|reflexivity].
    apply Ascii.eqb_eq in E. subst c. discriminate Hc.
  - intros [Hc Hr]. now rewrite Hc, Hr.
Qed.

Lemma noBackslash_init (s : string) : noBackslash s -> noBackslash (Str.init s).
Proof.
  induction s as [|c r IH]; [trivial|].
  intros H. apply noBackslash_cons in H as [Hc Hr].
  destruct r as [|c' r']; [reflexivity|].
  change (Str.init (String c (String c' r')))
    with (String c (Str.init (String c' r'))).
  apply noBackslash_cons. auto.
Qed.

Lemma noBackslash_lowerHead (s : string) :
  driveAt s = true -> noBackslash s -> noBackslash (lowerHead s).
Proof.
  destruct s as [|d r]; [discriminate|].
  intros Hd H. apply noBackslash_cons in H as [_ Hr].
  assert (Hu : Char.isUpperAZ d = true).
  { simpl in Hd. destruct r as [|c1 [|c2 r2]]; try discriminate.
    now destruct (Char.isUpperAZ d). }
  simpl. apply noBackslash_cons. split; [|exact Hr].
  now apply isUpperAZ_toLowerCase.
Qed.

Lemma noBackslash_normalizeDriveLetter (s : string) :
  noBackslash s -> noBackslash (normalizeDriveLetter s).
Proof.
  intros H. unfold normalizeDriveLetter.
  destruct (driveAt s) eqn:E; [now apply noBackslash_lowerHead|].
  destruct s as [|c r]; [exact H|].
  destruct (Char.isSlash c && driveAt r) eqn:E2; [|exact H].
  apply andb_prop in E2 as [_ E2].
  apply noBackslash_cons in H as [Hc Hr].
  apply noBackslash_cons. split; [exact Hc|].
  now apply noBackslash_lowerHead.
Qed.

Lemma normalizePath_noBackslash (w : bool) (p : string) :
  p <> EmptyString -> noBackslash (normalizePath w p).
Proof.
  intros Hp. unfold normalizePath.
  destruct p as [|c r]; [congruence|].
  set (p1 := replaceBackslashes (String c r)).
  assert (H1 : noBackslash p1) by apply replaceBackslashes_noBackslash.
  assert (H2 : noBackslash (if Str.endsWithSlash p1 then Str.init p1 else p1)).
  { destruct (Str.endsWithSlash p1); [now apply noBackslash_init|exact H1]. }
  destruct w; [now apply noBackslash_normalizeDriveLetter|exact H2].
Qed.

(** The drive-letter rewrite is idempotent: the letter it lower-cased no
    longer matches [[A-Z]]. *)
Lemma driveAt_lowerHead (s : string) :
  driveAt s = true -> driveAt (lowerHead s) = false.
Proof.
  destruct s as [|d [|c1 [|c2 r]]]; try discriminate.
  simpl. intros H.
  destruct (Char.isUpperAZ d) eqn:E; [|discriminate].
  apply isUpperAZ_toLowerCase in E as [E _]. now rewrite E.
Qed.

Lemma driveAt_upper (s : string) :
  driveAt s = true ->
  exists d r, s = String d r /\ Char.isUpperAZ d = true.
Proof.
  destruct s as [|d [|c1 [|c2 r]]]; try discriminate.
  simpl. intros H. exists d, (String c1 (String c2 r)). split; [reflexivity|].
  now destruct (Char.isUpperAZ d).
Qed.

Lemma driveAt_head_not_upper (c : ascii) (r : string) :
  Char.isUpperAZ c = false -> driveAt (String c r) = false.
Proof.
  intros H. destruct r as [|c1 [|c2 r]]; simpl; try reflexivity.
  now rewrite H.
Qed.

Lemma normalizeDriveLetter_idempotent (s : string) :
  normalizeDriveLetter (normalizeDriveLetter s) = normalizeDriveLetter s.
Proof.
  destruct (driveAt s) eqn:E.
  - assert (Hn : normalizeDriveLetter s = lowerHead s)
      by (unfold normalizeDriveLetter; now rewrite E).
    rewrite Hn.
    pose proof (driveAt_lowerHead s E) as E'.
    destruct (driveAt_upper s E) as (d & r & -> & Hu).
    apply isUpperAZ_toLowerCase in Hu as (_ & Hs & _).
    unfold normalizeDriveLetter. rewrite E'.
    cbn [lowerHead]. now rewrite Hs.
  - destruct s as [|c r]; [reflexivity|].
    destruct (Char.isSlash c && driveAt r) eqn:E2.
    + assert (Hn : normalizeDriveLetter (String c r) = String c (lowerHead r))
        by (unfold normalizeDriveLetter; now rewrite E, E2).
      rewrite Hn.
      apply andb_prop in E2 as [Hc Hr].
      apply isSlash_eq in Hc. subst c.
      unfold normalizeDriveLetter.
      rewrite (driveAt_head_not_upper _ _ slash_not_upper).
      now rewrite (driveAt_lowerHead r Hr).
    + assert (Hn : normalizeDriveLetter (String c r) = String c r)
        by (unfold normalizeDriveLetter; now rewrite E, E2).
      now rewrite !Hn.
Qed.

Lemma last_cons (a b : ascii) (r : string) :
  Str.last (String a (String b r)) = Str.last (String b r).
Proof. reflexivity. Qed.

Lemma init_cons (a b : ascii) (r : string) :
  Str.init (String a (String b r)) = String a (Str.init (String b r)).
Proof. reflexivity. Qed.

Lemma isSlash_replaced (c : ascii) :
  Char.isSlash (if Ascii.eqb c Char.backslash then Char.slash else c)
  = isSeparator c.
Proof.
  unfold isSeparator.
  destruct (Ascii.eqb c Char.backslash) eqn:E.
  - now rewrite orb_true_r.
  - now rewrite orb_false_r.
Qed.

(** Ending in two separators, read on the string after the backslashes
    are replaced *)
Lemma endsWithTwoSeparators_spec (p : string) :
  endsWithTwoSeparators p
  = Str.endsWithSlash (replaceBackslashes p)
    && Str.endsWithSlash (Str.init (replaceBackslashes p)).
Proof.
  induction p as [|a r IH]; [reflexivity|].
  destruct r as [|b [|c r2]].
  - unfold Str.endsWithSlash. simpl. now rewrite andb_false_r.
  - unfold Str.endsWithSlash, replaceBackslashes. simpl.
    rewrite !isSlash_replaced. apply andb_comm.
  - change (endsWithTwoSeparators (String a (String b (String c r2))))
      with (endsWithTwoSeparators (String b (String c r2))).
    rewrite IH. unfold Str.endsWithSlash, replaceBackslashes.
    cbn [Str.map]. rewrite last_cons, !init_cons, last_cons. reflexivity.
Qed.

Lemma last_lowerHead (s : string) :
  driveAt s = true -> Str.last (lowerHead s) = Str.last s.
Proof.
  destruct s as [|d [|c1 [|c2 r]]]; try discriminate. reflexivity.
Qed.

Lemma endsWithSlash_normalizeDriveLetter (s : string) :
  Str.endsWithSlash (normalizeDriveLetter s) = Str.endsWithSlash s.
Proof.
  unfold Str.endsWithSlash, normalizeDriveLetter.
  destruct (driveAt s) eqn:E; [now rewrite last_lowerHead|].
  destruct s as [|c r]; [reflexivity|].
  destruct (Char.isSlash c && driveAt r) eqn:E2; [|reflexivity].
  apply andb_prop in E2 as [_ Hr].
  pose proof (last_lowerHead r Hr) as Hl.
  destruct r as [|d r']; [discriminate|].
  cbn [lowerHead] in *. now rewrite !last_cons, Hl.
Qed.

(** The second pass of [normalizePath] has nothing left to do as soon as
    the first one left no trailing slash. *)
Lemma normalizePath_fixpoint (w : bool) (q : string) :
  noBackslash q ->
  Str.endsWithSlash q = false ->
  (w = true -> normalizeDriveLetter q = q) ->
  normalizePath w q = q.
Proof.
  intros Hb He Hd. unfold normalizePath.
  destruct q as [|c r]; [reflexivity|].
  unfold noBackslash in Hb. cbv zeta. rewrite !Hb, He.
  destruct w; auto.
Qed.

Lemma normalizePath_endsWithSlash (w : bool) (p : string) :
  Str.endsWithSlash (normalizePath w p)
  = Str.endsWithSlash (replaceBackslashes p)
    && Str.endsWithSlash (Str.init (replaceBackslashes p)).
Proof.
  unfold normalizePath. destruct p as [|c r]; [reflexivity|].
  set (p1 := replaceBackslashes (String c r)).
  assert (H : Str.endsWithSlash
                (if Str.endsWithSlash p1 then Str.init p1 else p1)
              = Str.endsWithSlash p1 && Str.endsWithSlash (Str.init p1)).
  { destruct (Str.endsWithSlash p1) eqn:E; [reflexivity|].
    now rewrite E. }
  destruct w; [rewrite endsWithSlash_normalizeDriveLetter|]; exact H.
Qed.

Lemma normalizePath_twice_when (w : bool) (p : string) :
  Str.endsWithSlash (normalizePath w p) = false ->
  normalizePath w (normalizePath w p) = normalizePath w p.
Proof.
  intros He. destruct p as [|c r]; [reflexivity|].
  apply normalizePath_fixpoint.
  - now apply normalizePath_noBackslash.
  - exact He.
  - intros ->. unfold normalizePath. apply normalizeDriveLetter_idempotent.
Qed.

Lemma init_length (s : string) :
  s <> EmptyString -> String.length s = S (String.length (Str.init s)).
Proof.
  induction s as [|c r IH]; [congruence|]. intros _.
  destruct r as [|c' r']; [reflexivity|].
  rewrite init_cons. simpl String.length at 1 2. f_equal. simpl.
  apply IH. discriminate.
Qed.

(** When the first pass does leave a trailing slash, the second pass
    removes it: the two results differ in length. *)
Lemma normalizePath_shrinks (w : bool) (p : string) :
  Str.endsWithSlash (normalizePath w p) = true ->
  normalizePath w (normalizePath w p) <> normalizePath w p.
Proof.
  intros He Heq.
  set (q := normalizePath w p) in *.
  assert (Hq : q <> EmptyString) by (intros E; rewrite E in He; discriminate).
  assert (Hb : noBackslash q).
  { apply normalizePath_noBackslash. intros ->. now apply Hq. }
  assert (Hlen : String.length (normalizePath w q)
                 = String.length (Str.init q)).
  { unfold normalizePath. destruct q as [|c r]; [congruence|].
    unfold noBackslash in Hb. cbv zeta. rewrite !Hb, He.
    destruct w; [|reflexivity].
    unfold normalizeDriveLetter.
    destruct (driveAt _) eqn:E.
    - destruct (Str.init (String c r)) as [|? ?]; reflexivity.
    - destruct (Str.init (String c r)) as [|c0 r0]; [reflexivity|].
      destruct (Char.isSlash c0 && driveAt r0); [|reflexivity].
      destruct r0; reflexivity. }
  rewrite Heq in Hlen. rewrite (init_length q Hq) in Hlen. lia.
Qed.

(** C6.  On a drive-letter platform [normalizePath] takes
    ["C:\Users\Bob\repo\"] to ["c:/Users/Bob/repo"]: the backslashes
    become slashes, the one trailing separator goes, and the drive letter
    is lower-cased.  The three steps are shown one by one. *)
Theorem normalizePath_windows_scenario :
  replaceBackslashes "C:\Users\Bob\repo\" = "C:/Users/Bob/repo/"
  /\ Str.init "C:/Users/Bob/repo/" = "C:/Users/Bob/repo"
  /\ normalizeDriveLetter "C:/Users/Bob/repo" = "c:/Users/Bob/repo"
  /\ normalizePath true "C:\Users\Bob\repo\" = "c:/Users/Bob/repo".
Proof. repeat split. Qed.

(** C1, as stated, fails: [normalizePath] strips one trailing separator
    only, so a path that ends in two separators is normalised to one that
    still ends in a separator, and a second pass strips that one. *)
Lemma normalizePath_not_idempotent :
  normalizePath false "/repo//" = "/repo/"
  /\ normalizePath false (normalizePath false "/repo//") = "/repo"
  /\ normalizePath false (normalizePath false "/repo//")
     <> normalizePath false "/repo//".
Proof. repeat split. discriminate. Qed.

(** C1, amended.  For every path [p] that does not end in two separators
    (slashes or backslashes), on either platform,
    [normalizePath (normalizePath p) = normalizePath p]. *)
Theorem normalizePath_idempotent (isWindows : bool) (p : string) :
  endsWithTwoSeparators p = false ->
  normalizePath isWindows (normalizePath isWindows p)
  = normalizePath isWindows p.
Proof.
  intros H. apply normalizePath_twice_when.
  rewrite normalizePath_endsWithSlash, <- endsWithTwoSeparators_spec.
  exact H.
Qed.

Lemma normalizePath_idempotent_witness :
  endsWithTwoSeparators "C:\Users\Bob\repo\" = false
  /\ normalizePath true (normalizePath true "C:\Users\Bob\repo\")
     = normalizePath true "C:\Users\Bob\repo\".
Proof.
  split; [reflexivity|].
  apply (normalizePath_idempotent true "C:\Users\Bob\repo\"). reflexivity.
Defined.

(** Not ending in two separators is the exact condition: a path that
    does end in two is never a fixed point after one pass. *)
Lemma normalizePath_twice_iff (isWindows : bool) (p : string) :
  normalizePath isWindows (normalizePath isWindows p)
  = normalizePath isWindows p
  <-> endsWithTwoSeparators p = false.
Proof.
  split.
  - intros Heq. destruct (endsWithTwoSeparators p) eqn:E; [|reflexivity].
    exfalso. apply (normalizePath_shrinks isWindows p); [|exact Heq].
    now rewrite normalizePath_endsWithSlash, <- endsWithTwoSeparators_spec.
  - intros H. apply normalizePath_twice_when.
    now rewrite normalizePath_endsWithSlash, <- endsWithTwoSeparators_spec.
Qed.

(** ** The scheme recogniser *)

Lemma span_spec (p : ascii -> bool) (s a b : string) :
  Str.span p s = (a, b) ->
  s = a ++ b
  /\ allChars p a = true
  /\ match b with
     | EmptyString => True
     | String c _ => p c = false
     end.
Proof.
  revert a b. induction s as [|c r IH]; intros a b H; simpl in H.
  - injection H as <- <-. auto.
  - destruct (p c) eqn:E.
    + destruct (Str.span p r) as [a' b'] eqn:E'.
      injection H as <- <-.
      destruct (IH a' b' eq_refl) as (-> & Ha & Hb).
      simpl. rewrite E, Ha. auto.
    + injection H as <- <-. simpl. auto.
Qed.

Lemma span_app (p : ascii -> bool) (run : string) (d : ascii) (rest : string) :
  allChars p run = true -> p d = false ->
  Str.span p (run ++ String d rest) = (run, String d rest).
Proof.
  intros Hrun Hd. induction run as [|c r IH]; simpl.
  - now rewrite Hd.
  - simpl in Hrun. apply andb_prop in Hrun as [Hc Hr].
    now rewrite Hc, (IH Hr).
Qed.

Lemma colon_not_schemeChar : Regex.isSchemeChar Char.colon = false.
Proof. reflexivity. Qed.

Lemma append_length (a b : string) :
  String.length (a ++ b) = String.length a + String.length b.
Proof. induction a as [|c r IH]; simpl; [reflexivity|now rewrite IH]. Qed.

(** What a successful [exec] of [hasSchemeRegex] says about its input *)
Lemma hasSchemeRegex_exec_Some (p s : string) :
  Regex.hasSchemeRegex_exec p = Some s ->
  exists (c : ascii) (run rest : string),
    s = String c run
    /\ p = s ++ String Char.colon rest
    /\ Char.isLetter c = true
    /\ run <> EmptyString
    /\ allChars Regex.isSchemeChar run = true.
Proof.
  unfold Regex.hasSchemeRegex_exec.
  destruct p as [|c r]; [discriminate|].
  destruct (Char.isLetter c) eqn:Hc; [|discriminate].
  destruct (Str.span Regex.isSchemeChar r) as [run rest] eqn:Hs.
  destruct run as [|c1 run']; [discriminate|].
  destruct rest as [|d rest']; [discriminate|].
  destruct (Ascii.eqb d Char.colon) eqn:Hd; [|discriminate].
  intros H. injection H as <-.
  apply Ascii.eqb_eq in Hd. subst d.
  destruct (span_spec _ _ _ _ Hs) as (-> & Hall & _).
  exists c, (String c1 run'), rest'. repeat split; auto; discriminate.
Qed.

Lemma hasSchemeRegex_exec_token (c : ascii) (run rest : string) :
  Char.isLetter c = true ->
  run <> EmptyString ->
  allChars Regex.isSchemeChar run = true ->
  Regex.hasSchemeRegex_exec (String c run ++ String Char.colon rest)
  = Some (String c run).
Proof.
  intros Hc Hne Hall. simpl. rewrite Hc.
  rewrite (span_app _ _ _ _ Hall colon_not_schemeChar).
  destruct run; [congruence|]. reflexivity.
Qed.

Lemma maybeUri_spec (p : string) : maybeUri p = true <-> hasSchemeToken p.
Proof.
  unfold maybeUri, Regex.hasSchemeRegex_test, hasSchemeToken. split.
  - destruct (Regex.hasSchemeRegex_exec p) as [s|] eqn:E; [|discriminate].
    intros _.
    destruct (hasSchemeRegex_exec_Some _ _ E) as (c & run & rest & -> & H).
    exists c, run, rest. exact H.
  - intros (c & run & rest & -> & Hc & Hne & Hall).
    now rewrite hasSchemeRegex_exec_token.
Qed.

(** A single letter before the colon is not a scheme. *)
Lemma driveLetter_no_scheme (d : ascii) (rest : string) :
  Regex.hasSchemeRegex_exec (String d (String Char.colon rest)) = None.
Proof.
  simpl. destruct (Char.isLetter d); reflexivity.
Qed.

(** C10.  [getScheme] returns a scheme exactly when [maybeUri] holds;
    a scheme that is returned has at least two characters and is followed
    by the colon in the input; so a drive reference such as ["c:"], a path
    that begins with ["C:/"], and any string with a single character
    before its colon has no scheme, and [isAbsolute] leaves the verdict on
    it to the operating system's rule. *)
Theorem getScheme_maybeUri_two_characters :
  (forall p : string,
      (exists s, getScheme p = Some s) <-> maybeUri p = true)
  /\ (forall p s : string,
        getScheme p = Some s ->
        2 <= String.length s
        /\ exists rest, p = s ++ String Char.colon rest)
  /\ getScheme "c:" = None /\ maybeUri "c:" = false
  /\ (forall rest : string,
        getScheme ("C:/" ++ rest) = None /\ maybeUri ("C:/" ++ rest) = false)
  /\ (forall (d : ascii) (rest : string),
        getScheme (String d (String Char.colon rest)) = None
        /\ maybeUri (String d (String Char.colon rest)) = false)
  /\ (forall (path_isAbsolute : string -> bool) (d : ascii) (rest : string),
        isAbsolute path_isAbsolute (String d (String Char.colon rest))
        = path_isAbsolute (String d (String Char.colon rest))).
Proof.
  assert (Hdrive : forall d rest,
             getScheme (String d (String Char.colon rest)) = None
             /\ maybeUri (String d (String Char.colon rest)) = false).
  { intros d rest. unfold maybeUri, Regex.hasSchemeRegex_test, getScheme.
    now rewrite driveLetter_no_scheme. }
  split; [|split; [|split; [|split; [|split; [|split]]]]].
  - intros p. unfold maybeUri, Regex.hasSchemeRegex_test, getScheme.
    destruct (Regex.hasSchemeRegex_exec p) as [s|].
    + split; eauto.
    + split; [intros [s Hs]|]; discriminate.
  - intros p s H.
    apply hasSchemeRegex_exec_Some in H
      as (c & run & rest & -> & Hp & _ & Hne & _).
    split; [|now exists rest].
    destruct run; [congruence|]. simpl. lia.
  - reflexivity.
  - reflexivity.
  - intros rest. apply (Hdrive "C"%char ("/" ++ rest)).
  - exact Hdrive.
  - intros os d rest. unfold isAbsolute.
    now rewrite (proj2 (Hdrive d rest)).
Qed.

Lemma getScheme_maybeUri_two_characters_witness :
  getScheme "file:///repo" = Some "file"
  /\ 2 <= String.length "file"
  /\ maybeUri "file:///repo" = true.
Proof.
  destruct getScheme_maybeUri_two_characters as (Hiff & Hlen & _).
  split; [reflexivity|]. split.
  - apply (Hlen "file:///repo" "file"). reflexivity.
  - apply (Hiff "file:///repo"). exists "file". reflexivity.
Defined.

(** C8.  [isAbsolute path] is true exactly when [path] has no leading
    [scheme:] token (a letter, then word, [+], [-] or [.] characters, then
    a colon) and the operating system's rule calls it absolute; a string
    with such a token is never absolute. *)
Theorem isAbsolute_iff (path_isAbsolute : string -> bool) (p : string) :
  (isAbsolute path_isAbsolute p = true
   <-> ~ hasSchemeToken p /\ path_isAbsolute p = true)
  /\ (hasSchemeToken p -> isAbsolute path_isAbsolute p = false).
Proof.
  unfold isAbsolute. pose proof (maybeUri_spec p) as Hm.
  destruct (maybeUri p) eqn:E; simpl.
  - split; [|reflexivity]. split; [discriminate|].
    intros [Hn _]. exfalso. apply Hn, Hm. reflexivity.
  - split.
    + split.
      * intros H. split; [|exact H]. intros Ht. apply Hm in Ht. discriminate.
      * intros [_ H]. exact H.
    + intros Ht. apply Hm in Ht. discriminate.
Qed.

Lemma isAbsolute_iff_witness :
  hasSchemeToken "file:///repo"
  /\ isAbsolute (fun _ => true) "file:///repo" = false
  /\ isAbsolute Str.startsWithSlash "/repo/src" = true.
Proof.
  assert (Ht : hasSchemeToken "file:///repo").
  { exists "f"%char, "ile", "///repo". repeat split. discriminate. }
  split; [exact Ht|]. split.
  - apply (proj2 (isAbsolute_iff (fun _ => true) "file:///repo")). exact Ht.
  - apply (proj1 (isAbsolute_iff Str.startsWithSlash "/repo/src")).
    split; [|reflexivity].
    intros (c & run & rest & Hp & Hl & _ & _). simpl in Hp.
    injection Hp as Hc _. subst c. discriminate.
Defined.

(** ** Cache keys *)

(** C9.  The cache-key vocabulary is the eight names [branches],
    [contributors], [providers], [remotes], [stashes], [status], [tags],
    [worktrees], each once; the repository-scoped keys are [branches] and
    [remotes] and no other, both as the type [GitRepositoryCaches] and as
    the set [gitRepositoryCacheKeys]. *)
Theorem cache_key_vocabulary :
  (forall c : GitCaches, c ∈ GitCaches_members)
  /\ List.map GitCaches_literal GitCaches_members
     = ["branches"; "contributors"; "providers"; "remotes"; "stashes";
        "status"; "tags"; "worktrees"]
  /\ NoDup (List.map GitCaches_literal GitCaches_members)
  /\ List.length GitCaches_members = 8
  /\ GitRepositoryCaches_members = [branches; remotes]
  /\ (forall s : string,
        s ∈ gitRepositoryCacheKeys <-> s = "branches" \/ s = "remotes")
  /\ size gitRepositoryCacheKeys = 2
  /\ (forall s : string,
        s ∈ gitRepositoryCacheKeys <->
        exists c, c ∈ GitRepositoryCaches_members /\ s = GitCaches_literal c).
Proof.
  assert (Hkeys : forall s : string,
             s ∈ gitRepositoryCacheKeys <-> s = "branches" \/ s = "remotes").
  { intros s. unfold gitRepositoryCacheKeys.
    rewrite elem_of_union, !elem_of_singleton. tauto. }
  split; [|split; [|split; [|split; [|split; [|split; [|split]]]]]].
  - intros c. unfold GitCaches_members. destruct c; repeat constructor.
  - reflexivity.
  - compute_done.
  - reflexivity.
  - reflexivity.
  - exact Hkeys.
  - unfold gitRepositoryCacheKeys.
    rewrite size_union; [now rewrite !size_singleton|].
    apply disjoint_singleton_l. rewrite elem_of_singleton. discriminate.
  - intros s. rewrite Hkeys. split.
    + intros [-> | ->]; [exists branches | exists remotes];
        (split; [|reflexivity]); vm_compute; repeat constructor.
    + intros (c & Hc & ->).
      change GitRepositoryCaches_members with [branches; remotes] in Hc.
      apply elem_of_cons in Hc as [-> | Hc]; [now left|].
      apply elem_of_cons in Hc as [-> | Hc]; [now right|].
      now apply elem_of_nil in Hc.
Qed.

(** ** The repository-bound view of a sub-provider *)

Section ProxyFacts.

Import SubProvider.

Context {World : Type}.

(** Every call of a function value reaches exactly one function of the
    sub-provider: the trace grows by one entry. *)
Lemma callFn_once (f : Fn World) (this : Val) (args : list Val)
    (st : State World) :
  exists c : Call,
    calls (snd (callFn f this args st)) = (calls st ++ [c])%list.
Proof.
  revert this args. induction f as [name body|value IH target rp];
    intros this args; simpl.
  - destruct (body this args (world st)) as [out w]. simpl. eauto.
  - apply IH.
Qed.

Lemma callFn_Native (name : string) (body : Body World) (this : Val)
    (args : list Val) (st : State World) :
  callFn (Native name body) this args st
  = (fst (body this args (world st)),
     {| world := snd (body this args (world st));
        calls := (calls st ++ [mkCall name this args])%list |}).
Proof. simpl. now destruct (body this args (world st)). Qed.

(** C5.  For the view [bound] that [createSubProviderProxyForRepo] makes
    of a sub-provider [target] and a repository path [rp]: calling
    [bound.m(args)] gives the outcome and the state that calling
    [target.m(rp, args)] gives; when [m] holds a function, the trace of
    calls grows by one entry; when it holds a function of the
    sub-provider, that function runs once, on [target], with [rp] put
    before the caller's arguments; and a member that is not a function
    reads through the view as it reads on [target]. *)
Theorem createSubProviderProxyForRepo_transparent
    (target : Obj World) (rp : string) (proxy : Val) (m : string)
    (args : list Val) (st : State World) :
  let bound := createSubProviderProxyForRepo proxy target rp in
  invokeProxy bound m args st = invokeObj target m (VString rp :: args) st
  /\ (forall f, getProp target m = Function f ->
        exists c, calls (snd (invokeProxy bound m args st))
                  = (calls st ++ [c])%list)
  /\ (forall name body,
        getProp target m = Function (Native name body) ->
        let r := body (self target) (VString rp :: args) (world st) in
        invokeProxy bound m args st
        = (fst r,
           {| world := snd r;
              calls := (calls st
                        ++ [mkCall name (self target) (VString rp :: args)])%list
           |}))
  /\ (forall v, getProp target m = Data v -> proxyRead bound m = Data v).
Proof.
  intros bound. subst bound.
  unfold invokeProxy, invokeObj, invoke, createSubProviderProxyForRepo,
    proxyGet.
  cbn [proxyRead proxySelf].
  destruct (getProp target m) as [v|f] eqn:E.
  - repeat split; try discriminate. intros v' H. exact H.
  - split; [reflexivity|]. split; [|split].
    + intros f' _. cbn [callFn]. apply callFn_once.
    + intros name body H. injection H as ->.
      cbn [callFn]. apply callFn_Native.
    + discriminate.
Qed.

End ProxyFacts.

Lemma createSubProviderProxyForRepo_transparent_witness :
  let bound :=
    SubProvider.createSubProviderProxyForRepo (SubProvider.VObject 2)
      sampleTarget "/repo" in
  let st := SubProvider.mkState 0 [] in
  SubProvider.invokeProxy bound "getBranch" [SubProvider.VString "main"] st
  = (SubProvider.Return (SubProvider.VString "main"),
     SubProvider.mkState 1
       [SubProvider.mkCall "getBranch" (SubProvider.VObject 1)
          [SubProvider.VString "/repo"; SubProvider.VString "main"]])
  /\ SubProvider.proxyRead bound "kind"
     = SubProvider.Data (SubProvider.VString "branches").
Proof.
  intros bound st.
  pose proof (createSubProviderProxyForRepo_transparent sampleTarget "/repo"
                (SubProvider.VObject 2) "getBranch"
                [SubProvider.VString "main"] st) as (_ & _ & Hn & _).
  pose proof (createSubProviderProxyForRepo_transparent sampleTarget "/repo"
                (SubProvider.VObject 2) "kind" [] st) as (_ & _ & _ & Hd).
  split.
  - etransitivity; [apply (Hn "getBranch"); reflexivity|reflexivity].
  - apply Hd. reflexivity.
Defined.

(** ** The overlay prefix *)

Lemma isVslsSep_not_letter (c : ascii) :
  Regex.isVslsSep c = true -> Char.isLetter c = false.
Proof.
  destruct c as [[] [] [] [] [] [] [] []]; vm_compute; congruence.
Qed.

(** An overlay path starts with a separator, so it has no scheme. *)
Lemma hasVslsPrefix_not_uri (p : string) :
  hasVslsPrefix p = true -> maybeUri p = false.
Proof.
  unfold hasVslsPrefix, Regex.vslsHasPrefixRegex_test.
  destruct p as [|c [|t r]]; try discriminate.
  intros H. apply andb_prop in H as [H _]. apply andb_prop in H as [H _].
  unfold maybeUri, Regex.hasSchemeRegex_test, Regex.hasSchemeRegex_exec.
  now rewrite (isVslsSep_not_letter c H).
Qed.

Lemma ensureLeadingSlash_cons (q : string) :
  exists r, ensureLeadingSlash q = String Char.slash r.
Proof.
  unfold ensureLeadingSlash. destruct q as [|c r]; simpl; [eauto|].
  destruct (Char.isSlash c) eqn:E; [|eauto].
  apply isSlash_eq in E. subst c. eauto.
Qed.

Lemma hasVslsPrefix_vslsPrefixed (q : string) :
  hasVslsPrefix (vslsPrefixed q) = true.
Proof.
  unfold vslsPrefixed. destruct (ensureLeadingSlash_cons q) as [r ->].
  reflexivity.
Qed.

Section OverlayPrefix.

Variable isWindows : bool.
Variable Uri_parse : string -> Uri.
Variable Uri_fsPath : Uri -> string.

Local Abbreviation add :=
  (addVslsPrefixIfNeeded isWindows Uri_parse Uri_fsPath).

Lemma addVslsPrefixIfNeeded_path (p : string) :
  maybeUri p = false ->
  add (OfString p)
  = if hasVslsPrefix p then OfString p
    else OfString (vslsPrefixed (normalizePath isWindows p)).
Proof.
  intros H. unfold add, addVslsPrefixIfNeeded. now rewrite H.
Qed.

(** A string with a scheme is parsed, and what comes back is a [Uri]. *)
Lemma addVslsPrefixIfNeeded_uri_string (p : string) :
  maybeUri p = true -> exists u, add (OfString p) = OfUri u.
Proof.
  intros H. unfold add, addVslsPrefixIfNeeded. rewrite H.
  destruct (hasVslsPrefix (Uri_fsPath (Uri_parse p))); eauto.
Qed.

(** C7, amended.  For a path string [p] with no leading [scheme:] token:
    when [p] has no overlay prefix, [addVslsPrefixIfNeeded p] is the
    string ["/~0"] followed by the normalised [p] with a leading slash, and
    [hasVslsPrefix] holds of it; when [p] has the prefix, it is returned
    unchanged; and applying the operation twice gives what applying it
    once gives. *)
Theorem addVslsPrefixIfNeeded_round_trip (p : string) :
  maybeUri p = false ->
  (hasVslsPrefix p = false ->
   exists s, add (OfString p) = OfString s
             /\ s = vslsPrefixed (normalizePath isWindows p)
             /\ hasVslsPrefix s = true)
  /\ (hasVslsPrefix p = true -> add (OfString p) = OfString p)
  /\ add (add (OfString p)) = add (OfString p).
Proof.
  intros Hp. rewrite (addVslsPrefixIfNeeded_path p Hp).
  destruct (hasVslsPrefix p) eqn:E.
  - split; [discriminate|]. split; [reflexivity|].
    now rewrite (addVslsPrefixIfNeeded_path p Hp), E.
  - set (s := vslsPrefixed (normalizePath isWindows p)).
    pose proof (hasVslsPrefix_vslsPrefixed (normalizePath isWindows p)) as Hs.
    fold s in Hs. split; [|split].
    + intros _. exists s. auto.
    + discriminate.
    + rewrite (addVslsPrefixIfNeeded_path s (hasVslsPrefix_not_uri s Hs)).
      now rewrite Hs.
Qed.

End OverlayPrefix.

Lemma addVslsPrefixIfNeeded_round_trip_witness :
  maybeUri "C:\Users\Bob\repo\" = false
  /\ addVslsPrefixIfNeeded true sampleParse path
       (OfString "C:\Users\Bob\repo\")
     = OfString "/~0/c:/Users/Bob/repo"
  /\ hasVslsPrefix "/~0/c:/Users/Bob/repo" = true.
Proof.
  split; [reflexivity|].
  destruct (addVslsPrefixIfNeeded_round_trip true sampleParse path
              "C:\Users\Bob\repo\" eq_refl) as (H & _ & _).
  destruct (H eq_refl) as (s & Hadd & Hs & Hpre).
  rewrite Hadd. subst s. split; [reflexivity|reflexivity].
Defined.

(** C7, as stated, fails on a string that starts with a [scheme:] token,
    be it a URI or a relative path whose first segment holds a colon: the
    string is parsed and a [Uri] comes back, not a string with the overlay
    prefix; the string form of that [Uri] starts with the scheme and has
    no overlay prefix either. *)
Lemma addVslsPrefixIfNeeded_uri_not_prefixed :
  hasVslsPrefix "file:///repo" = false
  /\ addVslsPrefixIfNeeded false sampleParse path (OfString "file:///repo")
     = OfUri (mkUri "file" "" "/~0/repo" "" "")
  /\ hasVslsPrefix "file:///~0/repo" = false
  /\ hasVslsPrefix "notes:2021/a.txt" = false
  /\ addVslsPrefixIfNeeded false sampleParse path
       (OfString "notes:2021/a.txt")
     = OfUri (mkUri "notes" "" "/~0/2021/a.txt" "" "")
  /\ ~ (exists s,
          addVslsPrefixIfNeeded false sampleParse path
            (OfString "file:///repo") = OfString s
          /\ hasVslsPrefix s = true).
Proof.
  repeat split. intros (s & H & _). discriminate H.
Qed.

(** ** [commonBaseIndex] *)

Lemma char_eqb_delimiter (c d : ascii) :
  String.eqb (String c EmptyString) (String d EmptyString) = Ascii.eqb c d.
Proof. simpl. now destruct (Ascii.eqb c d). Qed.

Lemma lastOr0_ext (P Q : nat -> Prop) (r : nat) :
  (forall i, P i <-> Q i) -> lastOr0 P r -> lastOr0 Q r.
Proof.
  intros H [[Hr Hmax] | [H0 Hnone]].
  - left. split; [now apply H|]. intros i Hi. apply Hmax. now apply H.
  - right. split; [exact H0|]. intros i Hi. apply (Hnone i). now apply H.
Qed.

Lemma matchUpTo_cons (eqc : ascii -> ascii -> bool) (c1 c2 : ascii)
    (r1 r2 : string) (j : nat) :
  matchUpTo eqc (String c1 r1) (String c2 r2) (S j)
  <-> eqc c1 c2 = true /\ matchUpTo eqc r1 r2 j.
Proof.
  unfold matchUpTo. split.
  - intros H. split.
    + destruct (H 0 ltac:(lia)) as (x & y & Hx & Hy & Hxy).
      simpl in Hx, Hy. congruence.
    + intros k Hk. apply (H (S k)). lia.
  - intros [Hc H] k Hk. destruct k as [|k].
    + exists c1, c2. auto.
    + apply (H k). lia.
Qed.

Lemma matchUpTo_0 (eqc : ascii -> ascii -> bool) (c1 c2 : ascii)
    (r1 r2 : string) :
  matchUpTo eqc (String c1 r1) (String c2 r2) 0 <-> eqc c1 c2 = true.
Proof.
  unfold matchUpTo. split.
  - intros H. destruct (H 0 ltac:(lia)) as (x & y & Hx & Hy & Hxy).
    simpl in Hx, Hy. congruence.
  - intros Hc k Hk. assert (k = 0) as -> by lia. exists c1, c2. auto.
Qed.

Lemma matchUpTo_head (eqc : ascii -> ascii -> bool) (s1 s2 : string)
    (j : nat) :
  matchUpTo eqc s1 s2 j ->
  exists c1 r1 c2 r2,
    s1 = String c1 r1 /\ s2 = String c2 r2 /\ eqc c1 c2 = true.
Proof.
  intros H. destruct (H 0 ltac:(lia)) as (x & y & Hx & Hy & Hxy).
  destruct s1 as [|c1 r1]; [discriminate|].
  destruct s2 as [|c2 r2]; [discriminate|].
  simpl in Hx, Hy. injection Hx as ->. injection Hy as ->.
  now exists x, r1, y, r2.
Qed.

(** The loop returns the last position that [exactMatch] accepts,
    counted from the index [i] it was entered with, or the [index] it
    was entered with when there is none. *)
Lemma commonBaseLoop_spec (d : ascii) (s1 s2 : string) (i index : nat) :
  let r := commonBaseLoop (String d EmptyString) s1 s2 i index in
  (r = index /\ forall j, ~ exactMatch d s1 s2 j)
  \/ (exists j, r = i + j /\ exactMatch d s1 s2 j
                /\ forall j', exactMatch d s1 s2 j' -> j' <= j).
Proof.
  revert s2 i index. induction s1 as [|c r1 IH]; intros s2 i index r.
  - left. split; [reflexivity|]. intros j [Hg _]. destruct j; discriminate.
  - assert (Hstop : forall c2 r2, s2 = String c2 r2 ->
              Ascii.eqb c c2 = false ->
              forall j, ~ exactMatch d (String c r1) s2 j).
    { intros c2 r2 -> Hne j [_ Hm].
      apply matchUpTo_head in Hm as (x & ? & y & ? & Hx & Hy & Hxy).
      injection Hx as <- _. injection Hy as <- _. congruence. }
    destruct s2 as [|c2 r2].
    + left. split; [reflexivity|]. intros j [_ Hm].
      apply matchUpTo_head in Hm as (? & ? & ? & ? & _ & Hy & _).
      discriminate.
    + subst r. cbn [commonBaseLoop].
      destruct (Ascii.eqb c c2) eqn:Hc.
      2:{ left. split; [reflexivity|]. now apply (Hstop c2 r2). }
      rewrite char_eqb_delimiter.
      assert (Hshift : forall j,
                 exactMatch d (String c r1) (String c2 r2) (S j)
                 <-> exactMatch d r1 r2 j).
      { intros j. unfold exactMatch. rewrite matchUpTo_cons, Hc. simpl.
        tauto. }
      assert (Hzero : exactMatch d (String c r1) (String c2 r2) 0
                      <-> Ascii.eqb c d = true).
      { unfold exactMatch. rewrite matchUpTo_0, Hc. simpl. split.
        - intros [H _]. injection H as ->. apply Ascii.eqb_refl.
        - intros H. apply Ascii.eqb_eq in H. subst. auto. }
      destruct (IH r2 (S i) (if Ascii.eqb c d then i else index))
        as [[Hr Hnone] | (j & Hr & Hj & Hmax)].
      * rewrite Hr. destruct (Ascii.eqb c d) eqn:Hd.
        -- right. exists 0. split; [lia|]. split; [now apply Hzero|].
           intros [|j'] Hj'; [lia|]. apply Hshift in Hj'.
           now apply Hnone in Hj'.
        -- left. split; [reflexivity|]. intros [|j'] Hj'.
           ++ apply Hzero in Hj'. discriminate.
           ++ apply Hshift in Hj'. now apply Hnone in Hj'.
      * right. exists (S j). split; [lia|]. split; [now apply Hshift|].
        intros [|j'] Hj'; [lia|]. apply Hshift in Hj'.
        apply Hmax in Hj'. lia.
Qed.

Lemma get_map (f : ascii -> ascii) (s : string) (i : nat) :
  String.get i (Str.map f s) = option_map f (String.get i s).
Proof.
  revert i. induction s as [|c r IH]; intros [|i]; simpl; auto.
Qed.

Lemma matchUpTo_map (f : ascii -> ascii) (a b : string) (i : nat) :
  matchUpTo Ascii.eqb (Str.map f a) (Str.map f b) i
  <-> matchUpTo (fun x y => Ascii.eqb (f x) (f y)) a b i.
Proof.
  unfold matchUpTo. split; intros H j Hj;
    destruct (H j Hj) as (x & y & Hx & Hy & Hxy).
  - rewrite get_map in Hx, Hy.
    destruct (String.get j a) as [x'|]; [|discriminate].
    destruct (String.get j b) as [y'|]; [|discriminate].
    simpl in Hx, Hy. injection Hx as <-. injection Hy as <-.
    exists x', y'. auto.
  - exists (f x), (f y). rewrite !get_map, Hx, Hy. auto.
Qed.

Lemma map_identity (s : string) : Str.map (fun c => c) s = s.
Proof. induction s as [|c r IH]; simpl; [reflexivity|now rewrite IH]. Qed.

Lemma keeps_identity (d : ascii) : keeps (fun c => c) d.
Proof. intros c. tauto. Qed.

(** With case not ignored the copy that is compared is the string. *)
Lemma comparedThrough_exact (lower : string -> string) (s : string) :
  comparedThrough lower false (fun c => c) s.
Proof. unfold comparedThrough, foldCase. now rewrite map_identity. Qed.

(** The lower-casing of Latin-1 strings goes character by character. *)
Lemma comparedThrough_latin1 (fold : bool) (s : string) :
  comparedThrough Str.lowerLatin1 fold
    (fun c => if fold then Char.toLowerCase c else c) s.
Proof.
  unfold comparedThrough, foldCase. destruct fold; [reflexivity|].
  now rewrite map_identity.
Qed.

Lemma exactMatch_through (f : ascii -> ascii) (d : ascii) (a b : string)
    (j : nat) :
  keeps f d ->
  exactMatch d (Str.map f a) (Str.map f b) j
  <-> delimiterMatchThrough f d a b j.
Proof.
  intros Hd. unfold exactMatch, delimiterMatchThrough.
  rewrite matchUpTo_map, get_map.
  destruct (String.get j a) as [c|]; simpl; [|tauto].
  split; intros [H Hm]; (split; [|exact Hm]); injection H as H; f_equal;
    now apply Hd.
Qed.

Lemma delimiterMatch_through (fold : bool) (d : ascii) (a b : string)
    (i : nat) :
  delimiterMatch fold d a b i
  <-> delimiterMatchThrough
        (fun c => if fold then Char.toLowerCase c else c) d a b i.
Proof.
  unfold delimiterMatch, delimiterMatchThrough, sameChar.
  destruct fold; tauto.
Qed.

Lemma caseless_keeps (fold : bool) (d : ascii) :
  caseless d -> keeps (fun c => if fold then Char.toLowerCase c else c) d.
Proof. destruct fold; [trivial|intros _; apply keeps_identity]. Qed.

Lemma slash_caseless : caseless Char.slash.
Proof.
  intros c. split.
  - destruct c as [[] [] [] [] [] [] [] []]; vm_compute; congruence.
  - intros ->. reflexivity.
Qed.

Lemma commonBaseIndex_nonempty (isLinux : bool) (lower : string -> string)
    (a b delimiter : string) (ignoreCase : option bool) :
  a <> EmptyString -> b <> EmptyString ->
  commonBaseIndex isLinux lower a b delimiter ignoreCase
  = commonBaseLoop delimiter
      (foldCase lower (ignoresCase isLinux ignoreCase) a)
      (foldCase lower (ignoresCase isLinux ignoreCase) b)
      0 0.
Proof.
  intros Ha Hb. unfold commonBaseIndex.
  destruct a; [congruence|]. destruct b; [congruence|]. reflexivity.
Qed.

(** The index is the last position of the delimiter in the copy of [a]
    that is compared, within the part where the two copies agree. *)
Lemma commonBaseIndex_compared (isLinux : bool) (lower : string -> string)
    (a b : string) (d : ascii) (ignoreCase : option bool) :
  a <> EmptyString -> b <> EmptyString ->
  lastOr0
    (comparedDelimiterMatch lower (ignoresCase isLinux ignoreCase) d a b)
    (commonBaseIndex isLinux lower a b (String d EmptyString) ignoreCase).
Proof.
  intros Ha Hb. rewrite (commonBaseIndex_nonempty _ _ _ _ _ _ Ha Hb).
  set (fold := ignoresCase isLinux ignoreCase).
  unfold comparedDelimiterMatch.
  destruct (commonBaseLoop_spec d (foldCase lower fold a)
              (foldCase lower fold b) 0 0)
    as [[Hr Hnone] | (j & Hr & Hj & Hmax)].
  - right. auto.
  - left. simpl in Hr. rewrite Hr. auto.
Qed.

(** When the comparison reads both strings character by character, the
    index is a position of the strings themselves. *)
Lemma commonBaseIndex_through (isLinux : bool) (lower : string -> string)
    (f : ascii -> ascii) (a b : string) (d : ascii)
    (ignoreCase : option bool) :
  comparedThrough lower (ignoresCase isLinux ignoreCase) f a ->
  comparedThrough lower (ignoresCase isLinux ignoreCase) f b ->
  keeps f d ->
  a <> EmptyString -> b <> EmptyString ->
  lastOr0 (delimiterMatchThrough f d a b)
    (commonBaseIndex isLinux lower a b (String d EmptyString) ignoreCase).
Proof.
  intros Hfa Hfb Hd Ha Hb.
  pose proof (commonBaseIndex_compared isLinux lower a b d ignoreCase Ha Hb)
    as H.
  unfold comparedDelimiterMatch in H.
  unfold comparedThrough in Hfa, Hfb. rewrite Hfa, Hfb in H.
  exact (lastOr0_ext _ _ _ (fun j => exactMatch_through f d a b j Hd) H).
Qed.

(** C2, as stated, fails in two ways when the comparison ignores case.
    The strings are lower-cased before the loop and the delimiter is not,
    so a delimiter that is a capital letter is never found: in ["xAy"]
    against itself with delimiter ["A"], index 1 is a delimiter position
    at which the strings match, and the function returns 0.  And the
    index is one of the lower-cased copy: with a lower-casing that writes
    two characters for one, as [toLowerCase] writes U+0069 U+0307 for
    U+0130, the slash of a string of two characters is found at index 2,
    which is no position of that string. *)
Lemma commonBaseIndex_capital_delimiter :
  commonBaseIndex false Str.lowerLatin1 "xAy" "xAy" "A" (Some true) = 0
  /\ delimiterMatch true "A" "xAy" "xAy" 1
  /\ ~ lastOr0 (delimiterMatch true "A" "xAy" "xAy")
         (commonBaseIndex false Str.lowerLatin1 "xAy" "xAy" "A" (Some true))
  /\ lowerTwoForOne "I/" = "i./"
  /\ commonBaseIndex false lowerTwoForOne "I/" "I/" "/" (Some true) = 2
  /\ String.get 2 "I/" = None
  /\ delimiterMatch true "/" "I/" "I/" 1
  /\ ~ lastOr0 (delimiterMatch true "/" "I/" "I/")
         (commonBaseIndex false lowerTwoForOne "I/" "I/" "/" (Some true)).
Proof.
  assert (H1 : delimiterMatch true "A" "xAy" "xAy" 1).
  { split; [reflexivity|]. intros [|[|j]] Hj; [| |lia].
    - exists "x"%char, "x"%char. auto.
    - exists "A"%char, "A"%char. auto. }
  assert (H2 : delimiterMatch true "/" "I/" "I/" 1).
  { split; [reflexivity|]. intros [|[|j]] Hj; [| |lia].
    - exists "I"%char, "I"%char. auto.
    - exists "/"%char, "/"%char. auto. }
  split; [reflexivity|]. split; [exact H1|]. split.
  { change (commonBaseIndex false Str.lowerLatin1 "xAy" "xAy" "A"
              (Some true)) with 0.
    intros [[_ Hmax] | [_ Hnone]].
    - apply Hmax in H1. lia.
    - now apply (Hnone 1). }
  split; [reflexivity|]. split; [reflexivity|]. split; [reflexivity|].
  split; [exact H2|].
  change (commonBaseIndex false lowerTwoForOne "I/" "I/" "/" (Some true))
    with 2.
  intros [[[Hg _] _] | [H0 _]]; discriminate.
Qed.

(** C2, amended.  [commonBaseIndex] returns 0 when either string is
    empty.  Otherwise it scans, left to right, the two strings, or their
    lower-cased copies when the comparison ignores case, and returns the
    last index at which the two copies still match and the character of
    the first copy is the delimiter, and 0 when there is no such index.
    When the comparison does not ignore case, that is the last delimiter
    position of the first string at which both strings still match.  When
    it ignores case, the same holds, with characters matched up to case,
    provided lower-casing goes character by character on the two strings
    and leaves the delimiter alone, as it does for the slash on strings
    of Latin-1 characters.  The comparison ignores case exactly when
    [ignoreCase] is [true], or is absent on a platform other than
    Linux. *)
Theorem commonBaseIndex_spec :
  (forall isLinux lower a b delimiter ignoreCase,
      a = EmptyString \/ b = EmptyString ->
      commonBaseIndex isLinux lower a b delimiter ignoreCase = 0)
  /\ (forall isLinux lower a b (d : ascii) ignoreCase,
        a <> EmptyString -> b <> EmptyString ->
        lastOr0
          (comparedDelimiterMatch lower (ignoresCase isLinux ignoreCase)
             d a b)
          (commonBaseIndex isLinux lower a b (String d EmptyString)
             ignoreCase))
  /\ (forall isLinux lower a b (d : ascii) ignoreCase,
        ignoresCase isLinux ignoreCase = false ->
        a <> EmptyString -> b <> EmptyString ->
        lastOr0 (delimiterMatch false d a b)
          (commonBaseIndex isLinux lower a b (String d EmptyString)
             ignoreCase))
  /\ (forall isLinux lower f a b (d : ascii) ignoreCase,
        comparedThrough lower (ignoresCase isLinux ignoreCase) f a ->
        comparedThrough lower (ignoresCase isLinux ignoreCase) f b ->
        keeps f d ->
        a <> EmptyString -> b <> EmptyString ->
        lastOr0 (delimiterMatchThrough f d a b)
          (commonBaseIndex isLinux lower a b (String d EmptyString)
             ignoreCase))
  /\ (forall isLinux a b (d : ascii) ignoreCase,
        caseless d -> a <> EmptyString -> b <> EmptyString ->
        lastOr0 (delimiterMatch (ignoresCase isLinux ignoreCase) d a b)
          (commonBaseIndex isLinux Str.lowerLatin1 a b (String d EmptyString)
             ignoreCase))
  /\ caseless Char.slash
  /\ (forall isLinux, ignoresCase isLinux None = negb isLinux)
  /\ (forall isLinux b, ignoresCase isLinux (Some b) = b)
  /\ commonBaseIndex false Str.lowerLatin1 "/A/b" "/a/B" "/" None = 2
  /\ commonBaseIndex true Str.lowerLatin1 "/A/b" "/a/B" "/" None = 0
  /\ commonBaseIndex true Str.lowerLatin1 "/A/b" "/a/B" "/" (Some true) = 2
  /\ commonBaseIndex false Str.lowerLatin1 "/A/b" "/a/B" "/" (Some false) = 0
  /\ commonBaseIndex true Str.lowerLatin1 "/repo/src/a.ts" "/repo/lib/b.ts"
       "/" None = 5
  /\ commonBaseIndex true Str.lowerLatin1 "src/a.ts" "lib/b.ts" "/" None = 0.
Proof.
  split; [|split; [|split; [|split; [|split; [|split; [|split; [|split]]]]]]].
  - intros isLinux lower a b delimiter ignoreCase [-> | ->]; [reflexivity|].
    now destruct a.
  - intros. now apply commonBaseIndex_compared.
  - intros isLinux lower a b d ignoreCase Hfold Ha Hb.
    apply (lastOr0_ext _ _ _
             (fun j => iff_sym (delimiterMatch_through false d a b j))).
    apply (commonBaseIndex_through isLinux lower _ a b d ignoreCase);
      try assumption.
    + rewrite Hfold. apply comparedThrough_exact.
    + rewrite Hfold. apply comparedThrough_exact.
    + apply keeps_identity.
  - intros. now apply commonBaseIndex_through.
  - intros isLinux a b d ignoreCase Hd Ha Hb.
    apply (lastOr0_ext _ _ _
             (fun j => iff_sym (delimiterMatch_through _ d a b j))).
    apply commonBaseIndex_through; try assumption.
    + apply comparedThrough_latin1.
    + apply comparedThrough_latin1.
    + now apply caseless_keeps.
  - exact slash_caseless.
  - reflexivity.
  - reflexivity.
  - repeat split.
Qed.

Lemma commonBaseIndex_spec_witness :
  lastOr0 (delimiterMatch false Char.slash "/repo/src" "/repo/lib")
    (commonBaseIndex true Str.lowerLatin1 "/repo/src" "/repo/lib" "/" None)
  /\ commonBaseIndex true Str.lowerLatin1 "/repo/src" "/repo/lib" "/" None = 5
  /\ commonBaseIndex true Str.lowerLatin1 "" "/repo" "/" None = 0.
Proof.
  destruct commonBaseIndex_spec as (Hempty & _ & Hexact & _).
  split; [|split].
  - apply (Hexact true Str.lowerLatin1 "/repo/src" "/repo/lib" Char.slash
             None); [reflexivity|discriminate|discriminate].
  - reflexivity.
  - apply Hempty. left. reflexivity.
Defined.

(** ** [isDescendent] *)

Lemma startsWith_isPrefix (p s : string) :
  Str.startsWith p s = true <-> isPrefix p s.
Proof.
  unfold isPrefix. revert s. induction p as [|a p IH]; intros s; simpl.
  - split; [intros _; now exists s|reflexivity].
  - destruct s as [|b s].
    + split; [discriminate|]. intros [t Ht]. discriminate.
    + rewrite andb_true_iff, Ascii.eqb_eq, IH. split.
      * intros [-> [t ->]]. now exists t.
      * intros [t Ht]. injection Ht as -> ->. split; [reflexivity|].
        now exists t.
Qed.

Lemma ensureLeadingSlash_length1 (s : string) :
  String.length (ensureLeadingSlash s) = 1 -> ensureLeadingSlash s = "/".
Proof.
  destruct (ensureLeadingSlash_cons s) as [r ->]. simpl.
  destruct r; [reflexivity|discriminate].
Qed.

Lemma isDescendent_descends (isWindows : bool) (p b : PathOrUri) :
  isDescendent isWindows p b = true <-> descends isWindows p b.
Proof.
  unfold isDescendent, descends, sameOrigin, comparedPath.
  destruct b as [b|b], p as [p|p]; cbn [pathOf];
    rewrite ?andb_true_iff, ?orb_true_iff, ?Nat.eqb_eq,
      ?startsWith_isPrefix, ?String.eqb_eq; tauto.
Qed.

(** C4, as stated, fails for a base that, as compared, already ends in a
    separator: no second separator is put after it.  ["/a//"] is
    normalised to ["/a/"]; ["/a/b"] does not start with ["/a//"], and
    [isDescendent] holds.  The same goes for a [Uri] base whose path ends
    in a slash. *)
Lemma isDescendent_base_with_separator :
  isDescendent false (OfString "/a/b") (OfString "/a//") = true
  /\ comparedPath false (OfString "/a//") = "/a/"
  /\ ~ descendentAsStated false (OfString "/a/b") (OfString "/a//")
  /\ isDescendent false (OfUri (mkUri "file" "" "/repo/src" "" ""))
       (OfUri (mkUri "file" "" "/repo/" "" "")) = true
  /\ ~ descendentAsStated false (OfUri (mkUri "file" "" "/repo/src" "" ""))
         (OfUri (mkUri "file" "" "/repo/" "" "")).
Proof.
  split; [reflexivity|]. split; [reflexivity|].
  split; [intros [_ [[t Ht] | H]]; discriminate|].
  split; [reflexivity|].
  intros [_ [[t Ht] | H]]; discriminate.
Qed.

(** C4, amended.  [isDescendent path base] is true exactly when, with
    string arguments normalised and given a leading slash and [Uri]
    arguments read by their path, the base is one character long or the
    path starts with the base, which is given a separator at its end
    unless it already ends in one; and, when both arguments are [Uri]s,
    their schemes and authorities are equal.  A string base of one
    character is the root ["/"].  For a base that does not end in a
    separator or is the root, and is the root if it is one character
    long, this is the claim as stated. *)
Theorem isDescendent_spec (isWindows : bool) (p b : PathOrUri) :
  (isDescendent isWindows p b = true <-> descends isWindows p b)
  /\ (forall s, b = OfString s ->
        String.length (comparedPath isWindows b) = 1 ->
        comparedPath isWindows b = "/")
  /\ ((String.length (comparedPath isWindows b) = 1 ->
       comparedPath isWindows b = "/") ->
      Str.endsWithSlash (comparedPath isWindows b) = false
      \/ comparedPath isWindows b = "/" ->
      (isDescendent isWindows p b = true
       <-> descendentAsStated isWindows p b)).
Proof.
  split; [apply isDescendent_descends|]. split.
  - intros s -> H. now apply ensureLeadingSlash_length1.
  - intros Hroot Hend. rewrite isDescendent_descends.
    unfold descends, descendentAsStated.
    set (B := comparedPath isWindows b) in *.
    destruct Hend as [Hend | Hend].
    + unfold ensureTrailingSlash. rewrite Hend.
      assert (Hne : B <> "/") by (intros E; rewrite E in Hend; discriminate).
      split; intros [Ho [H | H]]; (split; [exact Ho|]).
      * exfalso. apply Hne, Hroot, H.
      * left. exact H.
      * right. exact H.
      * contradiction.
    + rewrite Hend. split; intros [Ho _]; split; auto.
Qed.

Lemma isDescendent_spec_witness :
  isDescendent false (OfString "/repo/src/a.ts") (OfString "/repo") = true
  /\ descendentAsStated false (OfString "/repo/src/a.ts") (OfString "/repo")
  /\ isDescendent false (OfString "/repo2/src") (OfString "/repo") = false.
Proof.
  pose proof (isDescendent_spec false (OfString "/repo/src/a.ts")
                (OfString "/repo")) as (_ & Hroot & Hstated).
  split; [reflexivity|]. split; [|reflexivity].
  apply Hstated.
  - apply (Hroot "/repo"). reflexivity.
  - left. reflexivity.
  - reflexivity.
Defined.

(** ** [isChild] *)

Lemma append_associative (a b c : string) : (a ++ b) ++ c = a ++ b ++ c.
Proof.
  induction a as [|x r IH]; [reflexivity|].
  change (String x ((r ++ b) ++ c) = String x (r ++ b ++ c)).
  now rewrite IH.
Qed.

Lemma drop_append (a t : string) : Str.drop (String.length a) (a ++ t) = t.
Proof. induction a as [|c r IH]; simpl; auto. Qed.

Lemma splitCount_positive (t : string) : 1 <= Str.splitCount t.
Proof.
  induction t as [|c r IH]; simpl; [lia|]. destruct (Char.isSlash c); lia.
Qed.

Lemma splitCount_oneSegment (t : string) :
  Str.splitCount t = 1 <-> oneSegment t.
Proof.
  unfold oneSegment. induction t as [|c r IH]; simpl; [tauto|].
  pose proof (splitCount_positive r).
  destruct (Char.isSlash c); simpl; [|exact IH].
  split; [lia|discriminate].
Qed.

Lemma canonical_fixed (isWindows : bool) (s : string) :
  canonical isWindows s ->
  ensureLeadingSlash (normalizePath isWindows s) = s.
Proof.
  intros (Hs & Hb & He & Hd).
  rewrite (normalizePath_fixpoint isWindows s Hb He Hd).
  unfold ensureLeadingSlash. now rewrite Hs.
Qed.

(** On canonical strings [isChild] is what the claim says: the path is
    the base, a slash, and one segment. *)
Lemma isChild_canonical (isWindows : bool) (p b : string) :
  canonical isWindows p -> canonical isWindows b ->
  (isDescendent isWindows (OfString p) (OfString b) = true
   <-> exists t, p = b ++ "/" ++ t)
  /\ (isChild isWindows (OfString p) (OfString b) = true
      <-> exists t, p = b ++ "/" ++ t /\ oneSegment t).
Proof.
  intros Hp Hb.
  assert (Hdesc : isDescendent isWindows (OfString p) (OfString b) = true
                  <-> exists t, p = b ++ "/" ++ t).
  { rewrite isDescendent_descends. unfold descends, sameOrigin, comparedPath.
    rewrite (canonical_fixed _ _ Hp), (canonical_fixed _ _ Hb).
    destruct Hb as (Hs & _ & He & _).
    unfold ensureTrailingSlash, isPrefix. rewrite He. split.
    - intros [_ [H | [t ->]]].
      + destruct b as [|c [|c' r]]; try discriminate.
        unfold Str.endsWithSlash in He. simpl in *. congruence.
      + exists t. apply append_associative.
    - intros [t ->]. split; [exact I|]. right. exists t.
      symmetry. apply append_associative. }
  split; [exact Hdesc|].
  unfold isChild.
  assert (Hlead : ensureLeadingSlash b = b).
  { destruct Hb as (Hs & _). unfold ensureLeadingSlash. now rewrite Hs. }
  rewrite Hlead, andb_true_iff, Hdesc.
  unfold oneSegmentBeyond. cbn [pathOf].
  destruct Hb as (_ & _ & He & _). rewrite He, Nat.eqb_eq. split.
  - intros [[t ->] H]. exists t. split; [reflexivity|].
    apply splitCount_oneSegment.
    replace (String.length b + 1) with (String.length (b ++ "/")) in H
      by (rewrite append_length; reflexivity).
    rewrite <- append_associative in H.
    now rewrite drop_append in H.
  - intros (t & -> & Ht). split; [now exists t|].
    replace (String.length b + 1) with (String.length (b ++ "/"))
      by (rewrite append_length; reflexivity).
    rewrite <- append_associative.
    rewrite drop_append. now apply splitCount_oneSegment.
Qed.

(** C3.  The four examples of the claim evaluate as it says.  The
    equivalence does not hold in general: [isDescendent] normalises the
    path before it compares, and [isChild] counts the segments beyond the
    base on the path as it was given.  On a drive-letter platform the file
    ["C:\repo\src\a.ts"] lies below ["C:\repo\src"], which lies below
    ["C:\repo"], and still [isChild] calls it a child of ["C:\repo"]; and
    ["/a/b/"], one segment below ["/a"], is not called a child of it. *)
Theorem isChild_counts_segments_unnormalized :
  (forall isWindows,
      isChild isWindows (OfString "/a/b/c") (OfString "/a/b") = true
      /\ isChild isWindows (OfString "/a/b/c/d") (OfString "/a/b") = false
      /\ isChild isWindows (OfString "/repo/src") (OfString "/repo") = true
      /\ isChild isWindows
           (OfString "/repo/src/a.ts") (OfString "/repo") = false)
  /\ isDescendent true
       (OfString "C:\repo\src\a.ts") (OfString "C:\repo\src") = true
  /\ isDescendent true (OfString "C:\repo\src") (OfString "C:\repo") = true
  /\ isChild true (OfString "C:\repo\src\a.ts") (OfString "C:\repo") = true
  /\ (forall isWindows,
        isDescendent isWindows (OfString "/a/b/") (OfString "/a") = true
        /\ isChild isWindows (OfString "/a/b") (OfString "/a") = true
        /\ isChild isWindows (OfString "/a/b/") (OfString "/a") = false).
Proof.
  split; [intros []; repeat split|].
  split; [reflexivity|]. split; [reflexivity|]. split; [reflexivity|].
  intros []; repeat split.
Qed.

(** * Further properties of the code *)

(** ** [normalizePath]: what the result looks like *)

Lemma noBackslash_get (s : string) (i : nat) :
  noBackslash s -> String.get i s <> Some Char.backslash.
Proof.
  revert i. induction s as [|c r IH]; intros i H; [now destruct i|].
  apply noBackslash_cons in H as [Hc Hr].
  destruct i as [|i]; simpl.
  - intros E. injection E as ->. discriminate Hc.
  - now apply IH.
Qed.

(** X1.  The result of [normalizePath] holds no backslash, whatever the
    input and the platform. *)
Theorem normalizePath_has_no_backslash (isWindows : bool) (p : string)
    (i : nat) :
  String.get i (normalizePath isWindows p) <> Some Char.backslash.
Proof.
  destruct p as [|c r]; [now destruct i|].
  apply noBackslash_get, normalizePath_noBackslash. discriminate.
Qed.

Lemma map_length (f : ascii -> ascii) (s : string) :
  String.length (Str.map f s) = String.length s.
Proof. induction s as [|c r IH]; simpl; [reflexivity|now rewrite IH]. Qed.

Lemma lowerHead_length (s : string) :
  String.length (lowerHead s) = String.length s.
Proof. now destruct s. Qed.

Lemma normalizeDriveLetter_length (s : string) :
  String.length (normalizeDriveLetter s) = String.length s.
Proof.
  unfold normalizeDriveLetter.
  destruct (driveAt s); [apply lowerHead_length|].
  destruct s as [|c r]; [reflexivity|].
  destruct (Char.isSlash c && driveAt r); [|reflexivity].
  simpl. now rewrite lowerHead_length.
Qed.

Lemma last_map (f : ascii -> ascii) (s : string) :
  Str.last (Str.map f s) = option_map f (Str.last s).
Proof.
  induction s as [|c r IH]; [reflexivity|].
  destruct r as [|c' r']; [reflexivity|].
  change (Str.last (Str.map f (String c' r')) = option_map f (Str.last (String c' r'))).
  exact IH.
Qed.

Lemma normalizePath_length_eq (isWindows : bool) (p : string) :
  String.length (normalizePath isWindows p)
  = String.length p
    - (match Str.last p with
       | Some c => if isSeparator c then 1 else 0
       | None => 0
       end).
Proof.
  destruct p as [|c r]; [reflexivity|].
  unfold normalizePath.
  set (q := String c r).
  assert (Hq : q <> EmptyString) by discriminate.
  set (p1 := replaceBackslashes q).
  assert (H1 : String.length p1 = String.length q) by apply map_length.
  assert (Hlast : Str.endsWithSlash p1
                  = match Str.last q with
                    | Some c => isSeparator c
                    | None => false
                    end).
  { unfold Str.endsWithSlash, p1, replaceBackslashes. rewrite last_map.
    destruct (Str.last q) as [x|]; [|reflexivity].
    simpl. apply isSlash_replaced. }
  assert (Hlen : String.length
                   (if Str.endsWithSlash p1 then Str.init p1 else p1)
                 = String.length q
                   - (match Str.last q with
                      | Some c => if isSeparator c then 1 else 0
                      | None => 0
                      end)).
  { rewrite Hlast. destruct (Str.last q) as [x|]; [|lia].
    destruct (isSeparator x); [|lia].
    assert (Hp1 : p1 <> EmptyString) by (unfold p1, q; discriminate).
    pose proof (init_length p1 Hp1). lia. }
  destruct isWindows; [rewrite normalizeDriveLetter_length|]; exact Hlen.
Qed.

Lemma length_zero_empty (s : string) : String.length s = 0 -> s = EmptyString.
Proof. now destruct s. Qed.

(** X2.  [normalizePath] removes at most one character, and it removes
    one exactly when the input ends in a slash or a backslash. *)
Theorem normalizePath_length (isWindows : bool) (p : string) :
  String.length (normalizePath isWindows p)
  = String.length p
    - (match Str.last p with
       | Some c => if isSeparator c then 1 else 0
       | None => 0
       end)
  /\ String.length (normalizePath isWindows p) <= String.length p
  /\ String.length p <= String.length (normalizePath isWindows p) + 1.
Proof.
  pose proof (normalizePath_length_eq isWindows p) as H.
  split; [exact H|].
  destruct (Str.last p) as [c|]; [destruct (isSeparator c)|]; lia.
Qed.

(** X3.  The result of [normalizePath] is empty for the empty path and for
    a path that is one separator, and for no other: the root ["/"] is
    normalised to the empty string. *)
Theorem normalizePath_empty_iff (isWindows : bool) (p : string) :
  normalizePath isWindows p = EmptyString
  <-> p = EmptyString \/ p = "/" \/ p = "\".
Proof.
  split.
  - intros H. pose proof (normalizePath_length_eq isWindows p) as Hl.
    rewrite H in Hl. simpl in Hl.
    destruct p as [|c [|c' r]]; [now left| |].
    + right. simpl in Hl. unfold isSeparator, Char.isSlash in Hl.
      destruct (Ascii.eqb c Char.slash) eqn:E1.
      * apply Ascii.eqb_eq in E1. subst. now left.
      * destruct (Ascii.eqb c Char.backslash) eqn:E2; [|discriminate].
        apply Ascii.eqb_eq in E2. subst. now right.
    + exfalso.
      destruct (Str.last (String c (String c' r))) as [x|];
        [destruct (isSeparator x)|]; simpl in Hl; lia.
  - intros [-> | [-> | ->]]; now destruct isWindows.
Qed.






(** ** [commonBaseIndex] and [commonBase] *)

Lemma commonBaseLoop_symmetric (delimiter s1 s2 : string) (i index : nat) :
  commonBaseLoop delimiter s1 s2 i index
  = commonBaseLoop delimiter s2 s1 i index.
Proof.
  revert s2 i index. induction s1 as [|c r1 IH]; intros s2 i index.
  - now destruct s2.
  - destruct s2 as [|c2 r2]; [reflexivity|]. simpl.
    rewrite (Ascii.eqb_sym c2 c).
    destruct (Ascii.eqb c c2) eqn:E; [|reflexivity].
    apply Ascii.eqb_eq in E. subst c2. apply IH.
Qed.

Lemma commonBaseIndex_swap (isLinux : bool) (lower : string -> string)
    (a b delimiter : string) (ignoreCase : option bool) :
  commonBaseIndex isLinux lower a b delimiter ignoreCase
  = commonBaseIndex isLinux lower b a delimiter ignoreCase.
Proof.
  unfold commonBaseIndex.
  destruct a as [|x a'], b as [|y b']; try reflexivity.
  cbv zeta. apply commonBaseLoop_symmetric.
Qed.

(** X5.  [commonBaseIndex] does not depend on the order of its two
    strings, whatever [toLowerCase] does. *)
Theorem commonBaseIndex_symmetric (isLinux : bool)
    (toLowerCase : string -> string) (a b delimiter : string)
    (ignoreCase : option bool) :
  commonBaseIndex isLinux toLowerCase a b delimiter ignoreCase
  = commonBaseIndex isLinux toLowerCase b a delimiter ignoreCase.
Proof.
  unfold commonBaseIndex.
  destruct a as [|x a'], b as [|y b']; try reflexivity.
  cbv zeta. apply commonBaseLoop_symmetric.
Qed.

Lemma commonBaseLoop_bound (delimiter s1 s2 : string) (i index r : nat) :
  commonBaseLoop delimiter s1 s2 i index = r ->
  r = index
  \/ (i <= r /\ r < i + String.length s1 /\ r < i + String.length s2).
Proof.
  revert s2 i index.
  induction s1 as [|c r1 IH]; intros s2 i index; cbn [commonBaseLoop].
  - intros <-. now left.
  - destruct s2 as [|c2 r2]; [intros <-; now left|].
    destruct (Ascii.eqb c c2); [|intros <-; now left].
    intros H. apply IH in H as [H | H].
    + rewrite H.
      destruct (String.eqb (String c EmptyString) delimiter);
        [right; cbn [String.length]; lia|now left].
    + right. cbn [String.length]. lia.
Qed.

Lemma comparedThrough_length (lower : string -> string) (fold : bool)
    (f : ascii -> ascii) (s : string) :
  comparedThrough lower fold f s ->
  String.length (foldCase lower fold s) = String.length s.
Proof. intros H. rewrite H. apply map_length. Qed.

(** X6.  For two strings that are not empty, [commonBaseIndex] is 0 or an
    index into both copies that the loop compares, whatever the
    delimiter.  It is an index into the two strings themselves when the
    comparison goes character by character on them, which it does when
    case is not ignored. *)
Theorem commonBaseIndex_in_range (isLinux : bool)
    (toLowerCase : string -> string) (a b delimiter : string)
    (ignoreCase : option bool) :
  a <> EmptyString -> b <> EmptyString ->
  let fold := ignoresCase isLinux ignoreCase in
  let index :=
    commonBaseIndex isLinux toLowerCase a b delimiter ignoreCase in
  (index = 0
   \/ (index < String.length (foldCase toLowerCase fold a)
       /\ index < String.length (foldCase toLowerCase fold b)))
  /\ (forall f,
        comparedThrough toLowerCase fold f a ->
        comparedThrough toLowerCase fold f b ->
        index < String.length a /\ index < String.length b)
  /\ (fold = false -> index < String.length a /\ index < String.length b).
Proof.
  intros Ha Hb fold index.
  assert (Hgen : index = 0
                 \/ (index < String.length (foldCase toLowerCase fold a)
                     /\ index < String.length (foldCase toLowerCase fold b))).
  { unfold index. rewrite (commonBaseIndex_nonempty _ _ _ _ _ _ Ha Hb).
    fold fold.
    destruct (commonBaseLoop_bound delimiter (foldCase toLowerCase fold a)
                (foldCase toLowerCase fold b) 0 0 _ eq_refl) as [H | H];
      [now left|right; lia]. }
  assert (Hthrough : forall f,
             comparedThrough toLowerCase fold f a ->
             comparedThrough toLowerCase fold f b ->
             index < String.length a /\ index < String.length b).
  { intros f Hfa Hfb.
    rewrite (comparedThrough_length _ _ _ _ Hfa) in Hgen.
    rewrite (comparedThrough_length _ _ _ _ Hfb) in Hgen.
    destruct Hgen as [-> | H]; [|exact H].
    destruct a; [congruence|]. destruct b; [congruence|]. simpl. lia. }
  split; [exact Hgen|]. split; [exact Hthrough|].
  intros Hfold. apply (Hthrough (fun c => c)); rewrite Hfold;
    apply comparedThrough_exact.
Qed.

Lemma commonBaseIndex_in_range_witness :
  commonBaseIndex true lowerTwoForOne "/repo/src" "/repo" "/" None
  < String.length "/repo".
Proof.
  apply (proj2 (proj2 (commonBaseIndex_in_range true lowerTwoForOne
                         "/repo/src" "/repo" "/" None
                         ltac:(discriminate) ltac:(discriminate)))).
  reflexivity.
Defined.

Lemma substring0_drop (n : nat) (s : string) :
  s = substring0 n s ++ Str.drop n s.
Proof.
  revert s. induction n as [|n IH]; intros s; [reflexivity|].
  destruct s as [|c r]; [reflexivity|].
  change (String c r = String c (substring0 n r ++ Str.drop n r)).
  now rewrite <- IH.
Qed.

Lemma substring0_length (n : nat) (s : string) :
  String.length (substring0 n s) = Nat.min n (String.length s).
Proof.
  revert s. induction n as [|n IH]; intros s; [reflexivity|].
  destruct s as [|c r]; [reflexivity|]. simpl. now rewrite IH.
Qed.

Lemma substring0_last (n : nat) (s : string) (x : ascii) :
  String.get n s = Some x -> Str.last (substring0 (S n) s) = Some x.
Proof.
  revert s. induction n as [|n IH]; intros s H.
  - destruct s as [|c r]; [discriminate|]. simpl in H. injection H as ->.
    reflexivity.
  - destruct s as [|c r]; [discriminate|]. simpl in H.
    specialize (IH r H).
    change (substring0 (S (S n)) (String c r))
      with (String c (substring0 (S n) r)).
    destruct (substring0 (S n) r) as [|c' r'] eqn:E; [discriminate|].
    exact IH.
Qed.

Lemma substring0_map (f : ascii -> ascii) (n : nat) (s : string) :
  substring0 n (Str.map f s) = Str.map f (substring0 n s).
Proof.
  revert s. induction n as [|n IH]; intros s; [reflexivity|].
  destruct s as [|c r]; [reflexivity|]. simpl. now rewrite IH.
Qed.

Lemma matchUpTo_substring0 (s t : string) (n : nat) :
  matchUpTo Ascii.eqb s t n -> substring0 (S n) s = substring0 (S n) t.
Proof.
  revert s t. induction n as [|n IH]; intros s t H.
  - apply matchUpTo_head in H as (c1 & r1 & c2 & r2 & -> & -> & Hc).
    apply Ascii.eqb_eq in Hc. now subst.
  - pose proof (matchUpTo_head _ _ _ _ H)
      as (c1 & r1 & c2 & r2 & -> & -> & Hc).
    apply matchUpTo_cons in H as [_ H]. apply Ascii.eqb_eq in Hc. subst c2.
    change (String c1 (substring0 (S n) r1) = String c1 (substring0 (S n) r2)).
    now rewrite (IH r1 r2 H).
Qed.

Lemma get_lt (n : nat) (s : string) (x : ascii) :
  String.get n s = Some x -> n < String.length s.
Proof.
  revert n. induction s as [|c t IH]; intros [|n] H; simpl in *;
    try discriminate; try lia.
  apply IH in H. lia.
Qed.

(** A positive index is a position that the loop accepted. *)
Lemma commonBaseIndex_positive (isLinux : bool) (lower : string -> string)
    (a b : string) (d : ascii) (ignoreCase : option bool) :
  0 < commonBaseIndex isLinux lower a b (String d EmptyString) ignoreCase ->
  a <> EmptyString /\ b <> EmptyString
  /\ comparedDelimiterMatch lower (ignoresCase isLinux ignoreCase) d a b
       (commonBaseIndex isLinux lower a b (String d EmptyString) ignoreCase).
Proof.
  intros Hpos.
  assert (Ha : a <> EmptyString) by (intros ->; simpl in Hpos; lia).
  assert (Hb : b <> EmptyString)
    by (intros ->; destruct a; simpl in Hpos; lia).
  split; [exact Ha|]. split; [exact Hb|].
  destruct (commonBaseIndex_compared isLinux lower a b d ignoreCase Ha Hb)
    as [[H _] | [H _]]; [exact H|lia].
Qed.

(** X7.  [commonBase] returns a value exactly when [commonBaseIndex] is
    positive, and the value is a prefix of the first string.  When the
    comparison goes character by character on the two strings and leaves
    the delimiter alone, which it does when case is not ignored, the
    value is at least two characters long, ends in the delimiter, and is
    a prefix of the second string too, up to the characters that the
    comparison identifies.  So two paths that share only their leading
    slash have no common base. *)
Theorem commonBase_spec (isLinux : bool) (toLowerCase : string -> string)
    (a b : string) (d : ascii) (ignoreCase : option bool) :
  let fold := ignoresCase isLinux ignoreCase in
  let base :=
    commonBase isLinux toLowerCase a b (String d EmptyString) ignoreCase in
  (base = None
   <-> commonBaseIndex isLinux toLowerCase a b (String d EmptyString)
         ignoreCase = 0)
  /\ (forall r, base = Some r -> isPrefix r a)
  /\ (forall f r,
        comparedThrough toLowerCase fold f a ->
        comparedThrough toLowerCase fold f b ->
        keeps f d ->
        base = Some r ->
        2 <= String.length r
        /\ Str.last r = Some d
        /\ isPrefix (Str.map f r) (Str.map f b))
  /\ (forall r,
        fold = false -> base = Some r ->
        2 <= String.length r /\ Str.last r = Some d /\ isPrefix r b).
Proof.
  intros fold base. subst base. unfold commonBase.
  set (index := commonBaseIndex isLinux toLowerCase a b (String d EmptyString)
                  ignoreCase).
  assert (Hthrough : forall f r,
             comparedThrough toLowerCase fold f a ->
             comparedThrough toLowerCase fold f b ->
             keeps f d ->
             (if Nat.ltb 0 index then Some (substring0 (index + 1) a)
              else None) = Some r ->
             2 <= String.length r
             /\ Str.last r = Some d
             /\ isPrefix (Str.map f r) (Str.map f b)).
  { intros f r Hfa Hfb Hd Hr.
    destruct (Nat.ltb_spec 0 index) as [Hpos | Hzero]; [|discriminate].
    injection Hr as <-.
    destruct (commonBaseIndex_positive isLinux toLowerCase a b d ignoreCase
                Hpos) as (Ha & Hb & _).
    destruct (commonBaseIndex_through isLinux toLowerCase f a b d ignoreCase
                Hfa Hfb Hd Ha Hb) as [[[Hget Hm] _] | [H0 _]];
      [|fold index in H0; lia].
    fold index in Hget, Hm.
    rewrite Nat.add_1_r.
    pose proof (get_lt _ _ _ Hget) as Hlt.
    split; [rewrite substring0_length; lia|].
    split; [now apply substring0_last|].
    apply matchUpTo_map, matchUpTo_substring0 in Hm.
    exists (Str.drop (S index) (Str.map f b)).
    rewrite <- substring0_map, Hm. apply substring0_drop. }
  split; [|split; [|split]].
  - destruct (Nat.ltb_spec 0 index); split; (discriminate || lia || auto).
  - intros r Hr. destruct (Nat.ltb 0 index); [|discriminate].
    injection Hr as <-. exists (Str.drop (index + 1) a).
    apply substring0_drop.
  - exact Hthrough.
  - intros r Hfold Hr.
    destruct (Hthrough (fun c => c) r) as (H1 & H2 & H3); try assumption.
    + rewrite Hfold. apply comparedThrough_exact.
    + rewrite Hfold. apply comparedThrough_exact.
    + apply keeps_identity.
    + rewrite !map_identity in H3. auto.
Qed.

Lemma commonBase_spec_witness :
  commonBase true lowerTwoForOne "/repo/src/a.ts" "/repo/lib/b.ts" "/" None
  = Some "/repo/"
  /\ isPrefix "/repo/" "/repo/lib/b.ts"
  /\ commonBase true lowerTwoForOne "/src/a.ts" "/lib/b.ts" "/" None = None.
Proof.
  pose proof (commonBase_spec true lowerTwoForOne "/repo/src/a.ts"
                "/repo/lib/b.ts" Char.slash None) as (_ & _ & _ & H).
  destruct (H "/repo/" eq_refl eq_refl) as (_ & _ & Hp).
  split; [reflexivity|]. split; [exact Hp|].
  apply (proj1 (commonBase_spec true lowerTwoForOne "/src/a.ts" "/lib/b.ts"
                  Char.slash None)).
  reflexivity.
Defined.

(** ** [relative] and [splitPath] *)

Lemma map_append (f : ascii -> ascii) (a b : string) :
  Str.map f (a ++ b) = Str.map f a ++ Str.map f b.
Proof.
  induction a as [|c r IH]; [reflexivity|].
  change (String (f c) (Str.map f (r ++ b))
          = String (f c) (Str.map f r ++ Str.map f b)).
  now rewrite IH.
Qed.

(** Two strings that go together up to and including a slash, where one
    of them ends: the loop returns the position of that slash. *)
Lemma commonBaseLoop_shared (x t : string) (i index : nat) :
  commonBaseLoop "/" (x ++ String Char.slash t) (x ++ "/") i index
  = i + String.length x.
Proof.
  revert i index. induction x as [|c r IH]; intros i index.
  - simpl. destruct t; simpl; lia.
  - change (commonBaseLoop "/" (String c (r ++ String Char.slash t))
              (String c (r ++ "/")) i index = i + S (String.length r)).
    cbn [commonBaseLoop]. rewrite Ascii.eqb_refl, IH. lia.
Qed.

(** A string that ends in a slash, against itself: the loop returns the
    position of that last slash. *)
Lemma commonBaseLoop_same (s : string) (i index : nat) :
  Str.last s = Some Char.slash ->
  commonBaseLoop "/" s s i index = i + String.length s - 1.
Proof.
  revert i index. induction s as [|c r IH]; intros i index H;
    [discriminate|].
  cbn [commonBaseLoop]. rewrite Ascii.eqb_refl.
  destruct r as [|c' r'].
  - simpl in H. injection H as ->. simpl. lia.
  - rewrite IH by exact H. cbn [String.length]. lia.
Qed.

Lemma last_append_slash (s : string) :
  Str.last (s ++ "/") = Some Char.slash.
Proof.
  induction s as [|c r IH]; [reflexivity|].
  change (Str.last (String c (r ++ "/")) = Some Char.slash).
  destruct (r ++ "/") as [|c' r'] eqn:E; [now destruct r|exact IH].
Qed.

Lemma append_not_empty (a : string) (c : ascii) (t : string) :
  a ++ String c t <> EmptyString.
Proof. destruct a; discriminate. Qed.

Lemma keeps_fixed (f : ascii -> ascii) (d : ascii) : keeps f d -> f d = d.
Proof. intros H. now apply H. Qed.

Lemma keeps_slash (f : ascii -> ascii) :
  keeps f Char.slash -> f "/"%char = "/"%char.
Proof. apply keeps_fixed. Qed.

Lemma commonBaseIndex_shared (isLinux : bool) (lower : string -> string)
    (a b x t : string) (ignoreCase : option bool) :
  a <> EmptyString -> b <> EmptyString ->
  foldCase lower (ignoresCase isLinux ignoreCase) a
  = x ++ String Char.slash t ->
  foldCase lower (ignoresCase isLinux ignoreCase) b = x ++ "/" ->
  commonBaseIndex isLinux lower a b "/" ignoreCase = String.length x.
Proof.
  intros Ha Hb H1 H2.
  rewrite (commonBaseIndex_nonempty _ _ _ _ _ _ Ha Hb), H1, H2.
  apply commonBaseLoop_shared.
Qed.

(** [to] lies below [from], up to the characters that the comparison
    identifies: the index computed by [relative] is the length of
    [from]. *)
Lemma commonBaseIndex_below (isLinux : bool) (lower : string -> string)
    (f : ascii -> ascii) (from to t : string) (ignoreCase : option bool) :
  comparedThrough lower (ignoresCase isLinux ignoreCase) f (to ++ "/") ->
  comparedThrough lower (ignoresCase isLinux ignoreCase) f (from ++ "/") ->
  keeps f Char.slash ->
  Str.map f to = Str.map f from ++ String Char.slash t ->
  commonBaseIndex isLinux lower (to ++ "/") (from ++ "/") "/" ignoreCase
  = String.length from.
Proof.
  intros Hto Hfrom Hk H.
  rewrite <- (map_length f from).
  apply (commonBaseIndex_shared _ _ _ _ _ (t ++ "/"));
    try apply append_not_empty.
  - rewrite Hto, map_append, H. cbn [Str.map].
    rewrite (keeps_slash _ Hk).
    apply (append_associative _ (String Char.slash t) "/").
  - rewrite Hfrom, map_append. cbn [Str.map].
    now rewrite (keeps_slash _ Hk).
Qed.

Lemma get_append_slash (n : nat) (t : string) :
  String.get n (t ++ "/") = Some Char.slash ->
  t = substring0 n t ++ String Char.slash (Str.drop (S n) t)
  \/ (n = String.length t).
Proof.
  revert t. induction n as [|n IH]; intros t H.
  - destruct t as [|c r]; [now right|]. simpl in H. injection H as ->.
    now left.
  - destruct t as [|c r]; [destruct n; discriminate|].
    simpl in H. destruct (IH r H) as [Hl | Hr].
    + left.
      change (String c r
              = String c (substring0 n r
                          ++ String Char.slash (Str.drop (S n) r))).
      now rewrite <- Hl.
    + right. simpl. now rewrite Hr.
Qed.

Lemma substring0_all (s : string) : substring0 (String.length s) s = s.
Proof. induction s as [|c r IH]; simpl; [reflexivity|now rewrite IH]. Qed.

Lemma drop_beyond (n : nat) (s : string) :
  String.length s <= n -> Str.drop n s = EmptyString.
Proof.
  revert s. induction n as [|n IH]; intros s H.
  - destruct s; [reflexivity|simpl in H; lia].
  - destruct s as [|c r]; [reflexivity|]. simpl in *. apply IH. lia.
Qed.

(** When the comparison goes character by character, the index computed
    on [s1 ++ "/"] and [s2 ++ "/"] with the slash as delimiter is the last
    slash boundary that the two share beyond their first character, and 0
    when they share none. *)
Lemma commonBaseIndex_boundary (isLinux : bool) (lower : string -> string)
    (f : ascii -> ascii) (s1 s2 : string) (ignoreCase : option bool) :
  comparedThrough lower (ignoresCase isLinux ignoreCase) f (s1 ++ "/") ->
  comparedThrough lower (ignoresCase isLinux ignoreCase) f (s2 ++ "/") ->
  keeps f Char.slash ->
  let index :=
    commonBaseIndex isLinux lower (s1 ++ "/") (s2 ++ "/") "/" ignoreCase in
  (0 < index ->
   sharedAt f s1 s2 index
   /\ (forall j, sharedAt f s1 s2 j -> j <= index)
   /\ String.get index (s1 ++ "/") = Some Char.slash
   /\ String.get index (s2 ++ "/") = Some Char.slash)
  /\ (index = 0 -> forall j, ~ sharedAt f s1 s2 j).
Proof.
  intros H1 H2 Hk index.
  pose proof (commonBaseIndex_through isLinux lower f (s1 ++ "/")
                (s2 ++ "/") Char.slash ignoreCase H1 H2 Hk
                (append_not_empty _ _ _) (append_not_empty _ _ _)) as H.
  change (lastOr0 (delimiterMatchThrough f Char.slash (s1 ++ "/") (s2 ++ "/"))
            index) in H.
  split.
  - intros Hpos. destruct H as [[[Hget Hm] Hmax] | [H0 _]]; [|lia].
    split; [split; [exact Hpos|split; assumption]|].
    split; [intros j [_ Hj]; now apply Hmax|].
    split; [exact Hget|].
    destruct (Hm index (Nat.le_refl _)) as (x & y & Hx & Hy & Hxy).
    rewrite Hget in Hx. injection Hx as <-. rewrite Hy. f_equal.
    apply Ascii.eqb_eq in Hxy. rewrite (keeps_fixed _ _ Hk) in Hxy.
    symmetry in Hxy. now apply Hk.
  - intros H0 j [Hpos Hj]. destruct H as [[_ Hmax] | [_ Hnone]].
    + apply Hmax in Hj. lia.
    + now apply (Hnone j).
Qed.

Lemma substring0_append (a t : string) :
  substring0 (String.length a) (a ++ t) = a.
Proof. induction a as [|c r IH]; simpl; [reflexivity|now rewrite IH]. Qed.

Lemma startsWithSlash_cons (s : string) :
  Str.startsWithSlash s = true -> s = String Char.slash (Str.drop 1 s).
Proof.
  destruct s as [|c r]; [discriminate|]. simpl. intros H.
  apply isSlash_eq in H. now subst.
Qed.

Section RelativeFacts.

Variable isWindows : bool.
Variable isLinux : bool.
Variable toLowerCase : string -> string.
Variable Uri_parse_strict : string -> Uri.
Variable Uri_fsPath : Uri -> string.
Variable Uri_toString : Uri -> string.
Variable DocumentSchemes_File : string.
Variable path_dirname : string -> string.
Variable path_basename : string -> string.

Local Abbreviation norm := (normalizePath isWindows).
Local Abbreviation part := (pathPart isWindows Uri_parse_strict).
Local Abbreviation rel :=
  (relative isWindows isLinux toLowerCase Uri_parse_strict).
Local Abbreviation split :=
  (splitPath isWindows isLinux toLowerCase Uri_parse_strict Uri_fsPath
     Uri_toString DocumentSchemes_File path_dirname path_basename).
Local Abbreviation through :=
  (fun ignoreCase => comparedThrough toLowerCase
                       (ignoresCase isLinux ignoreCase)).

Lemma pathPart_path (s : string) : maybeUri s = false -> part s = norm s.
Proof. unfold pathPart, maybeUri. now intros ->. Qed.

(** X8.  For two paths without scheme, when the comparison goes
    character by character on the two normalised paths with their added
    slash and leaves the slash alone, which it does when case is not
    ignored: if the normalised [to] is the normalised [from], which is
    not empty, then a slash, then [rest], [relative from to] is [rest];
    and if the two go together up to that slash only up to the
    characters that the comparison identifies, [relative] still drops as
    many characters as [from] and the slash have. *)
Theorem relative_below (f : ascii -> ascii) (from to : string)
    (ignoreCase : option bool) :
  maybeUri from = false -> maybeUri to = false ->
  norm from <> EmptyString ->
  through ignoreCase f (norm to ++ "/") ->
  through ignoreCase f (norm from ++ "/") ->
  keeps f Char.slash ->
  (forall rest, norm to = norm from ++ "/" ++ rest ->
                rel from to ignoreCase = rest)
  /\ (forall t,
        Str.map f (norm to) = Str.map f (norm from) ++ String Char.slash t ->
        rel from to ignoreCase
        = Str.drop (String.length (norm from) + 1) (norm to)).
Proof.
  intros Hf Ht Hne Hto Hfrom Hk.
  assert (Hgen : forall t,
             Str.map f (norm to)
             = Str.map f (norm from) ++ String Char.slash t ->
             rel from to ignoreCase
             = Str.drop (String.length (norm from) + 1) (norm to)).
  { intros t H. unfold relative.
    rewrite (pathPart_path from Hf), (pathPart_path to Ht).
    rewrite (commonBaseIndex_below _ _ f _ _ t ignoreCase Hto Hfrom Hk H).
    destruct (norm from) as [|c r] eqn:E; [congruence|]. reflexivity. }
  split; [|exact Hgen].
  intros rest H.
  rewrite (Hgen (Str.map f rest)).
  - rewrite H.
    replace (String.length (norm from) + 1)
      with (String.length (norm from ++ "/"))
      by (rewrite append_length; reflexivity).
    rewrite <- append_associative. apply drop_append.
  - rewrite H, map_append.
    change (Str.map f ("/" ++ rest))
      with (String (f "/"%char) (Str.map f rest)).
    now rewrite (keeps_slash _ Hk).
Qed.

(** What [relative p p] needs of the compared copy of the path with its
    added slash: it still ends in the slash and is not shorter. *)
Lemma relative_same (p : string) (ignoreCase : option bool) :
  let copy :=
    foldCase toLowerCase (ignoresCase isLinux ignoreCase) (norm p ++ "/") in
  maybeUri p = false ->
  Str.last copy = Some Char.slash ->
  String.length (norm p ++ "/") <= String.length copy ->
  rel p p ignoreCase = EmptyString.
Proof.
  intros copy Hp Hcl Hcn. unfold relative. rewrite (pathPart_path p Hp).
  rewrite commonBaseIndex_nonempty by apply append_not_empty.
  fold copy.
  rewrite (commonBaseLoop_same copy 0 0 Hcl).
  rewrite append_length in Hcn. cbn [String.length] in Hcn.
  destruct (Nat.ltb_spec 0 (0 + String.length copy - 1)) as [Hpos | Hzero].
  - apply drop_beyond. lia.
  - apply length_zero_empty. lia.
Qed.

(** X9.  For a path without scheme, [relative p p] is the empty string:
    whenever the copy of the normalised path with its added slash that
    the loop compares (its lower-cased copy when case is ignored) still
    ends in the slash and is not shorter, as with a [toLowerCase] that
    keeps the slash and never shortens a string; so whenever
    lower-casing goes character by character on it and leaves the slash
    alone; and always when case is not ignored. *)
Theorem relative_self (p : string) (ignoreCase : option bool) :
  maybeUri p = false ->
  (let copy :=
     foldCase toLowerCase (ignoresCase isLinux ignoreCase) (norm p ++ "/") in
   Str.last copy = Some Char.slash ->
   String.length (norm p ++ "/") <= String.length copy ->
   rel p p ignoreCase = EmptyString)
  /\ (forall f : ascii -> ascii,
        through ignoreCase f (norm p ++ "/") ->
        f Char.slash = Char.slash ->
        rel p p ignoreCase = EmptyString)
  /\ (ignoresCase isLinux ignoreCase = false ->
      rel p p ignoreCase = EmptyString).
Proof.
  intros Hp. split; [|split].
  - cbv zeta. intros Hcl Hcn. now apply relative_same.
  - intros f Hf Hs. apply relative_same; [exact Hp| |].
    + rewrite Hf, map_append.
      change (Str.map f "/") with (String (f Char.slash) EmptyString).
      rewrite Hs. apply last_append_slash.
    + rewrite Hf, map_length. lia.
  - intros Hfold. apply relative_same; [exact Hp| |];
      rewrite Hfold; unfold foldCase.
    + apply last_append_slash.
    + lia.
Qed.

(** X10.  When the comparison goes character by character on the two
    paths with their added slash and leaves the slash alone, which it
    does when case is not ignored, [relative] strips whole leading
    segments only: its result is the path of [to] as it is, or what
    follows one of its slashes, or the empty string. *)
Theorem relative_strips_segments (f : ascii -> ascii) (from to : string)
    (ignoreCase : option bool) :
  let result :=
    relative isWindows isLinux toLowerCase Uri_parse_strict from to
      ignoreCase in
  let path := pathPart isWindows Uri_parse_strict to in
  through ignoreCase f (path ++ "/") ->
  through ignoreCase f (pathPart isWindows Uri_parse_strict from ++ "/") ->
  keeps f Char.slash ->
  result = path
  \/ (exists pre, path = pre ++ "/" ++ result)
  \/ result = EmptyString.
Proof.
  cbv zeta. intros Hto Hfrom Hk. unfold relative.
  set (index := commonBaseIndex isLinux toLowerCase (part to ++ "/")
                  (part from ++ "/") "/" ignoreCase).
  destruct (Nat.ltb_spec 0 index) as [Hpos | Hzero]; [|now left].
  right.
  destruct (proj1 (commonBaseIndex_boundary isLinux toLowerCase f (part to)
                     (part from) ignoreCase Hto Hfrom Hk) Hpos)
    as (_ & _ & Hget & _).
  fold index in Hget.
  destruct (get_append_slash _ _ Hget) as [H | H].
  - left. exists (substring0 index (part to)).
    rewrite Nat.add_1_r. exact H.
  - right. apply drop_beyond. lia.
Qed.

(** X11.  With a repository path that is not empty and has no scheme,
    when the comparison goes character by character on the normalised
    repository path and on the path, each with its added slash, and
    leaves the slash alone, which it does when case is not ignored:
    [splitPath] cuts the path at the last slash boundary that the two
    share beyond their first character, so that the path is the returned
    repository path, a slash and the returned relative path, or is the
    returned repository path with nothing after it; and when the two
    share no such boundary, it returns the normalised repository path and
    the path less its leading slash. *)
Theorem splitPath_reassembles (f : ascii -> ascii) (path repoPath : string)
    (splitOnBaseIfMissing : bool) (ignoreCase : option bool) :
  repoPath <> EmptyString -> maybeUri repoPath = false ->
  through ignoreCase f (norm repoPath ++ "/") ->
  through ignoreCase f (part path ++ "/") ->
  keeps f Char.slash ->
  let '(r, repo) :=
    split path (Some repoPath) splitOnBaseIfMissing ignoreCase in
  (forall i,
      sharedAt f (norm repoPath) (part path) i ->
      (forall j, sharedAt f (norm repoPath) (part path) j -> j <= i) ->
      repo = substring0 i (part path)
      /\ r = Str.drop (i + 1) (part path)
      /\ (part path = repo ++ "/" ++ r
          \/ (part path = repo /\ r = EmptyString)))
  /\ ((forall i, ~ sharedAt f (norm repoPath) (part path) i) ->
      repo = norm repoPath
      /\ (part path = String Char.slash r
          \/ (part path = r /\ Str.startsWithSlash r = false))).
Proof.
  intros Hne Hrp Hrepo Hpath Hk. unfold splitPath.
  destruct repoPath as [|c0 r0]; [congruence|].
  unfold maybeUri in Hrp. rewrite Hrp.
  set (rp := norm (String c0 r0)) in *.
  pose proof (commonBaseIndex_boundary isLinux toLowerCase f rp (part path)
                ignoreCase Hrepo Hpath Hk) as Hb. cbv zeta in Hb.
  set (index := commonBaseIndex isLinux toLowerCase (rp ++ "/")
                  (part path ++ "/") "/" ignoreCase) in *.
  destruct Hb as [Hb1 Hb0].
  destruct (Nat.ltb_spec 0 index) as [Hpos | Hzero]; cbv beta iota zeta.
  - destruct (Hb1 Hpos) as (Hsh & Hmax & _ & Hget). split.
    + intros i Hi Himax.
      assert (i = index) as ->
        by (apply Nat.le_antisymm; [now apply Hmax|now apply Himax]).
      split; [reflexivity|]. split; [reflexivity|].
      destruct (get_append_slash _ _ Hget) as [H | H].
      * left. rewrite Nat.add_1_r. exact H.
      * right. rewrite H. split; [now rewrite substring0_all|].
        apply drop_beyond. lia.
    + intros Hnone. now apply Hnone in Hsh.
  - assert (H0 : index = 0) by lia.
    destruct (Str.startsWithSlash (part path)) eqn:E; cbv beta iota zeta.
    + split; [intros i Hi _; now apply (Hb0 H0) in Hi|].
      intros _. split; [reflexivity|]. left.
      now apply startsWithSlash_cons.
    + split; [intros i Hi _; now apply (Hb0 H0) in Hi|].
      intros _. split; [reflexivity|]. right. auto.
Qed.

(** X12.  For a path and a repository path without scheme, when the
    comparison goes character by character on the two normalised paths
    with their added slash and leaves the slash alone, which it does when
    case is not ignored: if the normalised path is the normalised
    repository path, which is not empty, then a slash, then [rest],
    [splitPath] returns [rest] and the normalised repository path; and if
    the two go together only up to the characters that the comparison
    identifies, the repository path that is returned is cut out of the
    path and has the path's letter case. *)
Theorem splitPath_below (f : ascii -> ascii) (path repoPath : string)
    (splitOnBaseIfMissing : bool) (ignoreCase : option bool) :
  maybeUri path = false -> maybeUri repoPath = false ->
  norm repoPath <> EmptyString ->
  through ignoreCase f (norm path ++ "/") ->
  through ignoreCase f (norm repoPath ++ "/") ->
  keeps f Char.slash ->
  (forall rest, norm path = norm repoPath ++ "/" ++ rest ->
     split path (Some repoPath) splitOnBaseIfMissing ignoreCase
     = (rest, norm repoPath))
  /\ (forall t,
        Str.map f (norm path)
        = Str.map f (norm repoPath) ++ String Char.slash t ->
        split path (Some repoPath) splitOnBaseIfMissing ignoreCase
        = (Str.drop (String.length (norm repoPath) + 1) (norm path),
           substring0 (String.length (norm repoPath)) (norm path))).
Proof.
  intros Hp Hrp Hne Hpath Hrepo Hk.
  assert (Hgen : forall t,
             Str.map f (norm path)
             = Str.map f (norm repoPath) ++ String Char.slash t ->
             split path (Some repoPath) splitOnBaseIfMissing ignoreCase
             = (Str.drop (String.length (norm repoPath) + 1) (norm path),
                substring0 (String.length (norm repoPath)) (norm path))).
  { intros t H. unfold splitPath.
    destruct repoPath as [|c0 r0]; [now elim Hne|].
    unfold maybeUri in Hrp. rewrite Hrp, (pathPart_path path Hp).
    rewrite commonBaseIndex_swap.
    rewrite (commonBaseIndex_below _ _ f _ _ t ignoreCase Hpath Hrepo Hk H).
    destruct (norm (String c0 r0)) as [|c r] eqn:E; [congruence|].
    reflexivity. }
  split; [|exact Hgen].
  intros rest H.
  rewrite (Hgen (Str.map f rest)).
  - rewrite H. f_equal.
    + replace (String.length (norm repoPath) + 1)
        with (String.length (norm repoPath ++ "/"))
        by (rewrite append_length; reflexivity).
      rewrite <- append_associative. apply drop_append.
    + apply substring0_append.
  - rewrite H, map_append.
    change (Str.map f ("/" ++ rest))
      with (String (f "/"%char) (Str.map f rest)).
    now rewrite (keeps_slash _ Hk).
Qed.

(** X13.  With a repository path that is not empty and has no scheme, the
    relative part that [splitPath] returns is [relative repoPath path],
    less its leading slash when the two paths share nothing. *)
Theorem splitPath_relative (path repoPath : string)
    (splitOnBaseIfMissing : bool) (ignoreCase : option bool) :
  repoPath <> EmptyString -> maybeUri repoPath = false ->
  let r := fst (split path (Some repoPath) splitOnBaseIfMissing ignoreCase) in
  r = rel repoPath path ignoreCase
  \/ String Char.slash r = rel repoPath path ignoreCase.
Proof.
  intros Hne Hrp. unfold splitPath, relative.
  destruct repoPath as [|c0 r0]; [congruence|].
  rewrite (pathPart_path _ Hrp).
  unfold maybeUri in Hrp. rewrite Hrp.
  rewrite (commonBaseIndex_swap isLinux toLowerCase (part path ++ "/")).
  destruct (Nat.ltb 0 _); [now left|].
  destruct (Str.startsWithSlash (part path)) eqn:E; [|now left].
  right. cbn [fst]. symmetry. now apply startsWithSlash_cons.
Qed.

End RelativeFacts.

Lemma relative_below_witness :
  relative false true lowerTwoForOne sampleParse "/repo" "/repo/src/a.ts"
    None = "src/a.ts".
Proof.
  apply (proj1 (relative_below false true lowerTwoForOne sampleParse
                  (fun c => c) "/repo" "/repo/src/a.ts" None eq_refl eq_refl
                  ltac:(discriminate)
                  (comparedThrough_exact _ _) (comparedThrough_exact _ _)
                  (keeps_identity _)) "src/a.ts").
  reflexivity.
Defined.

Lemma relative_self_witness :
  relative false false lowerTwoForOne sampleParse "/I/repo" "/I/repo" None
  = "".
Proof.
  apply (proj1 (relative_self false false lowerTwoForOne sampleParse
                  "/I/repo" None eq_refl)).
  - reflexivity.
  - vm_compute. lia.
Defined.

Lemma relative_strips_segments_witness :
  relative false true lowerTwoForOne sampleParse "/repo/lib" "/repo/src/a.ts"
    None = "/repo/src/a.ts"
  \/ (exists pre,
        "/repo/src/a.ts"
        = pre ++ "/" ++ relative false true lowerTwoForOne sampleParse
                          "/repo/lib" "/repo/src/a.ts" None)
  \/ relative false true lowerTwoForOne sampleParse "/repo/lib"
       "/repo/src/a.ts" None = "".
Proof.
  apply (relative_strips_segments false true lowerTwoForOne sampleParse
           (fun c => c) "/repo/lib" "/repo/src/a.ts" None
           (comparedThrough_exact _ _) (comparedThrough_exact _ _)
           (keeps_identity _)).
Defined.

Lemma splitPath_reassembles_witness :
  splitPath false true lowerTwoForOne sampleParse path path "file"
    (fun s => s) (fun s => s) "/repo/src/a.ts" (Some "/repo") false None
  = ("src/a.ts", "/repo").
Proof.
  pose proof (splitPath_reassembles false true lowerTwoForOne sampleParse
                path path "file" (fun s => s) (fun s => s) (fun c => c)
                "/repo/src/a.ts" "/repo" false None
                ltac:(discriminate) eq_refl
                (comparedThrough_exact _ _) (comparedThrough_exact _ _)
                (keeps_identity _)) as H.
  destruct (splitPath false true lowerTwoForOne sampleParse path path "file"
              (fun s => s) (fun s => s) "/repo/src/a.ts" (Some "/repo")
              false None) as [r repo].
  destruct H as [H _].
  destruct (H 5) as (-> & -> & _); [| |reflexivity].
  - split; [lia|]. split; [reflexivity|].
    intros j Hj. do 6 (destruct j as [|j]; [eexists _, _; repeat split|]).
    lia.
  - intros j [_ [Hg _]].
    do 6 (destruct j as [|j]; [lia|]).
    do 9 (destruct j as [|j]; [discriminate Hg|]).
    destruct j; discriminate Hg.
Defined.

Lemma splitPath_below_witness :
  splitPath false true lowerTwoForOne sampleParse path path "file"
    (fun s => s) (fun s => s) "/repo/src/a.ts" (Some "/repo") false None
  = ("src/a.ts", "/repo").
Proof.
  apply (proj1 (splitPath_below false true lowerTwoForOne sampleParse path
                  path "file" (fun s => s) (fun s => s) (fun c => c)
                  "/repo/src/a.ts" "/repo" false None eq_refl eq_refl
                  ltac:(discriminate)
                  (comparedThrough_exact _ _) (comparedThrough_exact _ _)
                  (keeps_identity _)) "src/a.ts").
  reflexivity.
Defined.

Lemma splitPath_relative_witness :
  let r := fst (splitPath false true lowerTwoForOne sampleParse path path
                  "file" (fun s => s) (fun s => s) "/other/x" (Some "/repo")
                  false None) in
  r = relative false true lowerTwoForOne sampleParse "/repo" "/other/x" None
  \/ String Char.slash r
     = relative false true lowerTwoForOne sampleParse "/repo" "/other/x"
         None.
Proof.
  apply (splitPath_relative false true lowerTwoForOne sampleParse path path
           "file" (fun s => s) (fun s => s) "/other/x" "/repo" false None).
  - discriminate.
  - reflexivity.
Defined.

(** With case ignored and a lower-casing that lengthens the strings, the
    index is one of the lower-cased copies, and [commonBase], [relative]
    and [splitPath] cut the strings as given at it: the hypotheses on the
    comparison in the theorems above are needed. *)
Example lower_casing_that_lengthens :
  commonBase false lowerTwoForOne "/I/x" "/I/y" "/" (Some true)
  = Some "/I/x"
  /\ relative false false lowerTwoForOne sampleParse "/I" "/I/src/a.ts"
       (Some true) = "rc/a.ts"
  /\ splitPath false false lowerTwoForOne sampleParse path path "file"
       (fun s => s) (fun s => s) "/I/src/a.ts" (Some "/I") false (Some true)
     = ("rc/a.ts", "/I/").
Proof. repeat split; reflexivity. Qed.

(** ** [isDescendent] and [isChild]: order properties *)

(** X14.  Every path and every [Uri] is a descendant of the root, and an
    empty base or a base of one backslash counts as the root. *)
Theorem isDescendent_root (isWindows : bool) (p : PathOrUri) :
  isDescendent isWindows p (OfString "/") = true
  /\ isDescendent isWindows p (OfString "") = true
  /\ isDescendent isWindows p (OfString "\") = true.
Proof.
  unfold isDescendent. destruct isWindows, p; repeat split.
Qed.

Lemma append_empty (s : string) : s ++ EmptyString = s.
Proof.
  induction s as [|c r IH]; [reflexivity|].
  change (String c (r ++ EmptyString) = String c r). now rewrite IH.
Qed.

Lemma isPrefix_ensureTrailingSlash (b : string) :
  isPrefix b (ensureTrailingSlash b).
Proof.
  unfold ensureTrailingSlash, isPrefix.
  destruct (Str.endsWithSlash b); [exists EmptyString|exists "/"]; auto.
  symmetry. apply append_empty.
Qed.

Lemma isPrefix_trans (a b c : string) :
  isPrefix a b -> isPrefix b c -> isPrefix a c.
Proof.
  intros [s ->] [t ->]. exists (s ++ t). apply append_associative.
Qed.

(** X15.  On strings [isDescendent] is transitive: a descendant of a
    descendant of [c] is a descendant of [c]. *)
Theorem isDescendent_transitive (isWindows : bool) (a b c : string) :
  isDescendent isWindows (OfString a) (OfString b) = true ->
  isDescendent isWindows (OfString b) (OfString c) = true ->
  isDescendent isWindows (OfString a) (OfString c) = true.
Proof.
  rewrite !isDescendent_descends. unfold descends, sameOrigin, comparedPath.
  set (A := ensureLeadingSlash (normalizePath isWindows a)).
  set (B := ensureLeadingSlash (normalizePath isWindows b)).
  set (C := ensureLeadingSlash (normalizePath isWindows c)).
  intros [_ H1] [_ H2]. split; [exact I|].
  destruct H2 as [H2 | H2]; [now left|].
  destruct H1 as [H1 | H1].
  - left. destruct H2 as [s Hs].
    assert (HC : exists r, C = String Char.slash r)
      by apply ensureLeadingSlash_cons.
    destruct HC as [r HC].
    rewrite Hs in H1. rewrite append_length in H1.
    unfold ensureTrailingSlash in H1.
    destruct (Str.endsWithSlash C).
    + rewrite HC in *. simpl in *. lia.
    + rewrite append_length, HC in H1. simpl in H1. lia.
  - right. apply (isPrefix_trans _ B); [exact H2|].
    apply (isPrefix_trans _ (ensureTrailingSlash B)); [|exact H1].
    apply isPrefix_ensureTrailingSlash.
Qed.

Lemma isDescendent_transitive_witness :
  isDescendent false (OfString "/repo/src/a.ts") (OfString "/repo") = true.
Proof.
  apply (isDescendent_transitive false "/repo/src/a.ts" "/repo/src" "/repo");
    reflexivity.
Defined.

(** X16.  A path in canonical form is not a descendant of itself. *)
Theorem isDescendent_irreflexive (isWindows : bool) (p : string) :
  canonical isWindows p ->
  isDescendent isWindows (OfString p) (OfString p) = false.
Proof.
  intros Hp.
  destruct (isDescendent isWindows (OfString p) (OfString p)) eqn:E;
    [|reflexivity].
  apply (proj1 (isChild_canonical isWindows p p Hp Hp)) in E as [t Ht].
  apply (f_equal String.length) in Ht.
  rewrite !append_length in Ht. simpl in Ht. lia.
Qed.

Lemma isDescendent_irreflexive_witness :
  isDescendent true (OfString "/c:/repo") (OfString "/c:/repo") = false.
Proof.
  apply (isDescendent_irreflexive true "/c:/repo").
  repeat split.
Defined.

(** X24.  For a path and a base in canonical form, [isDescendent] holds
    exactly when the path is the base, a slash, and more, and [isChild]
    holds exactly when that more is one segment, with no slash in it. *)
Theorem isChild_of_canonical (isWindows : bool) (p b : string) :
  canonical isWindows p -> canonical isWindows b ->
  (isDescendent isWindows (OfString p) (OfString b) = true
   <-> exists t, p = b ++ "/" ++ t)
  /\ (isChild isWindows (OfString p) (OfString b) = true
      <-> exists t, p = b ++ "/" ++ t /\ oneSegment t).
Proof. intros Hp Hb. exact (isChild_canonical isWindows p b Hp Hb). Qed.

Lemma isChild_of_canonical_witness :
  isChild false (OfString "/repo/src") (OfString "/repo") = true
  /\ isChild false (OfString "/repo/src/a.ts") (OfString "/repo") = false.
Proof.
  assert (H1 : canonical false "/repo/src") by (repeat split).
  assert (H2 : canonical false "/repo") by (repeat split).
  assert (H3 : canonical false "/repo/src/a.ts") by (repeat split).
  split.
  - apply (proj2 (isChild_of_canonical false "/repo/src" "/repo" H1 H2)).
    exists "src". split; reflexivity.
  - destruct (isChild false (OfString "/repo/src/a.ts") (OfString "/repo"))
      eqn:E; [|reflexivity].
    apply (proj2 (isChild_of_canonical false _ _ H3 H2)) in E
      as (t & Ht & Hseg).
    vm_compute in Ht. injection Ht as Ht. subst t. discriminate Hseg.
Defined.

(** ** The overlay prefix, continued *)

Lemma span_all (p : ascii -> bool) (run : string) :
  allChars p run = true -> Str.span p run = (run, EmptyString).
Proof.
  induction run as [|c r IH]; [reflexivity|]. simpl. intros H.
  apply andb_prop in H as [Hc Hr]. now rewrite Hc, (IH Hr).
Qed.

Lemma isVslsSep_not_digit (c : ascii) :
  Regex.isVslsSep c = true -> Char.isDigit c = false.
Proof.
  destruct c as [[] [] [] [] [] [] [] []]; vm_compute; congruence.
Qed.

Lemma span_digits_tail (marker tail : string) :
  allChars Char.isDigit marker = true ->
  Regex.sepOrEnd tail = true ->
  Str.span Char.isDigit (marker ++ tail) = (marker, tail).
Proof.
  intros Hm Ht. destruct tail as [|c t].
  - rewrite append_empty. now apply span_all.
  - apply span_app; [exact Hm|]. now apply isVslsSep_not_digit.
Qed.

(** X17.  [hasVslsPrefix] accepts exactly the strings made of a
    separator ([/], [|] or a backslash), a tilde, then one or more digits
    or the word [external], then a separator or the end of the string;
    [isVslsRoot] accepts the same strings. *)
Theorem hasVslsPrefix_iff (p : string) :
  (hasVslsPrefix p = true <-> vslsShape p)
  /\ isVslsRoot p = hasVslsPrefix p.
Proof.
  split; [|reflexivity].
  unfold hasVslsPrefix, Regex.vslsHasPrefixRegex_test, vslsShape. split.
  - destruct p as [|c0 [|t r]]; try discriminate.
    rewrite !andb_true_iff, Ascii.eqb_eq. intros [[Hc ->] Hm].
    unfold Regex.vslsMarker in Hm.
    destruct (Str.span Char.isDigit r) as [ds rest] eqn:Hs.
    destruct (span_spec _ _ _ _ Hs) as (Hr & Hall & _).
    destruct ds as [|d ds'].
    + apply andb_prop in Hm as [Hext Hend].
      apply startsWith_isPrefix in Hext as [tail ->].
      exists c0, "external", tail.
      split; [reflexivity|]. split; [exact Hc|]. split; [now left|].
      exact Hend.
    + exists c0, (String d ds'), rest. subst r.
      split; [reflexivity|]. split; [exact Hc|]. split; [|exact Hm].
      right. split; [discriminate|exact Hall].
  - intros (c0 & marker & tail & -> & Hc & Hmarker & Hend).
    rewrite Hc. cbn [andb]. rewrite Ascii.eqb_refl. cbn [andb].
    unfold Regex.vslsMarker.
    destruct Hmarker as [-> | [Hne Hall]].
    + cbn. exact Hend.
    + rewrite (span_digits_tail _ _ Hall Hend).
      destruct marker; [congruence|exact Hend].
Qed.

Section OverlayUri.

Variable isWindows : bool.
Variable Uri_parse : string -> Uri.
Variable Uri_fsPath : Uri -> string.

Local Abbreviation addPrefix :=
  (addVslsPrefixIfNeeded isWindows Uri_parse Uri_fsPath).

(** X18.  Given a [Uri], [addVslsPrefixIfNeeded] returns a [Uri] with the
    same scheme, authority, query and fragment; its path is the path it
    had when its [fsPath] has the overlay prefix, and otherwise a path
    with the overlay prefix, made from the normalised [fsPath]. *)
Theorem addVslsPrefixIfNeeded_uri (u : Uri) :
  exists u',
    addPrefix (OfUri u) = OfUri u'
    /\ scheme u' = scheme u /\ authority u' = authority u
    /\ query u' = query u /\ fragment u' = fragment u
    /\ (if hasVslsPrefix (Uri_fsPath u) then u' = u
        else path u' = vslsPrefixed (normalizePath isWindows (Uri_fsPath u))
             /\ hasVslsPrefix (path u') = true).
Proof.
  unfold addVslsPrefixIfNeeded.
  destruct (hasVslsPrefix (Uri_fsPath u)) eqn:E.
  - exists u. repeat split.
  - eexists. split; [reflexivity|]. cbn. repeat split.
    apply hasVslsPrefix_vslsPrefixed.
Qed.

End OverlayUri.

(** ** The repository-bound view: a member that is missing *)

(** X19.  When the sub-provider has no member [m], reading [m] through
    the bound view gives [undefined], and calling it throws a type error
    and leaves the world and the trace of calls as they were: no function
    of the sub-provider runs. *)
Theorem proxy_missing_member (World : Type)
    (target : SubProvider.Obj World) (rp : string) (proxy : SubProvider.Val)
    (m : string) (args : list SubProvider.Val)
    (st : SubProvider.State World) :
  SubProvider.props target !! m = None ->
  let bound := SubProvider.createSubProviderProxyForRepo proxy target rp in
  SubProvider.proxyRead bound m = SubProvider.Data SubProvider.VUndefined
  /\ SubProvider.invokeProxy bound m args st
     = (SubProvider.Throw SubProvider.TypeError, st).
Proof.
  intros H bound. subst bound.
  unfold SubProvider.invokeProxy, SubProvider.invoke.
  cbn [SubProvider.createSubProviderProxyForRepo SubProvider.proxyRead
         SubProvider.proxySelf].
  unfold SubProvider.proxyGet, SubProvider.getProp. rewrite H. auto.
Qed.

Lemma proxy_missing_member_witness :
  SubProvider.invokeProxy
    (SubProvider.createSubProviderProxyForRepo (SubProvider.VObject 2)
       sampleTarget "/repo")
    "getTag" [] (SubProvider.mkState 0 [])
  = (SubProvider.Throw SubProvider.TypeError, SubProvider.mkState 0 []).
Proof.
  apply (proxy_missing_member nat sampleTarget "/repo"
           (SubProvider.VObject 2) "getTag" [] (SubProvider.mkState 0 [])).
  reflexivity.
Defined.

(** ** The clipboard text of a commit *)

Lemma allChars_append (p : ascii -> bool) (a b : string) :
  allChars p (a ++ b) = allChars p a && allChars p b.
Proof.
  induction a as [|c r IH]; [reflexivity|].
  change (p c && allChars p (r ++ b) = p c && allChars p r && allChars p b).
  rewrite IH. now rewrite andb_assoc.
Qed.

Lemma indexOfFrom_spec (c : ascii) (s : string) (i : Z) :
  let a := fst (Str.span (fun x => negb (Ascii.eqb x c)) s) in
  if allChars (fun x => negb (Ascii.eqb x c)) s
  then Views.indexOfFrom c s i = (-1)%Z /\ a = s
  else Views.indexOfFrom c s i = (i + Z.of_nat (String.length a))%Z
       /\ substring0 (String.length a) s = a.
Proof.
  revert i. induction s as [|x r IH]; intros i; [now split|].
  cbn [Views.indexOfFrom Str.span allChars].
  destruct (Ascii.eqb x c) eqn:E; cbn [negb andb].
  - split; [simpl; lia|reflexivity].
  - specialize (IH (i + 1)%Z). cbv zeta in IH.
    destruct (Str.span (fun x0 => negb (Ascii.eqb x0 c)) r) as [a b] eqn:Hs.
    cbn [fst] in *.
    destruct (allChars (fun x0 => negb (Ascii.eqb x0 c)) r).
    + destruct IH as [H1 H2]. split; [exact H1|now rewrite H2].
    + destruct IH as [H1 H2]. split.
      * rewrite H1. cbn [String.length]. lia.
      * cbn [String.length substring0]. now rewrite H2.
Qed.

Lemma firstLine_singleLine (s : string) : singleLine (firstLine s) = true.
Proof.
  unfold singleLine, firstLine.
  destruct (Str.span (fun c => negb (Ascii.eqb c Views.newline)) s)
    as [a b] eqn:Hs.
  now destruct (span_spec _ _ _ _ Hs) as (_ & H & _).
Qed.

(** X20.  The clipboard text of a commit is its short SHA, a colon and a
    space, and the first line of its message, followed by the space and
    ellipsis glyphs when the message has further lines.  It holds no line
    feed as soon as the short SHA and the two glyphs hold none.
    [CommitFileNode] gives the same text when it is displayed as a commit,
    and the file name otherwise. *)
Theorem toClipboard_first_line (space ellipsis : string)
    (commit : Views.GitLogCommit) :
  Views.CommitNode_toClipboard space ellipsis commit
  = Views.shortSha commit ++ ": " ++ firstLine (Views.message commit)
    ++ (if singleLine (Views.message commit) then EmptyString
        else space ++ ellipsis)
  /\ (singleLine (Views.shortSha commit) = true ->
      singleLine space = true -> singleLine ellipsis = true ->
      singleLine (Views.CommitNode_toClipboard space ellipsis commit) = true)
  /\ (forall fileName,
        Views.CommitFileNode_toClipboard space ellipsis (Some true) fileName
          commit
        = Views.CommitNode_toClipboard space ellipsis commit
        /\ Views.CommitFileNode_toClipboard space ellipsis (Some false)
             fileName commit = fileName
        /\ Views.CommitFileNode_toClipboard space ellipsis None fileName
             commit = fileName).
Proof.
  assert (Heq : Views.CommitNode_toClipboard space ellipsis commit
                = Views.shortSha commit ++ ": "
                  ++ firstLine (Views.message commit)
                  ++ (if singleLine (Views.message commit) then EmptyString
                      else space ++ ellipsis)).
  { unfold Views.CommitNode_toClipboard, Views.indexOf, firstLine, singleLine.
    pose proof (indexOfFrom_spec Views.newline (Views.message commit) 0)
      as H. cbv zeta in H.
    destruct (allChars _ (Views.message commit)).
    - destruct H as [-> ->]. cbn [Z.eqb negb]. now rewrite append_empty.
    - destruct H as [-> H2]. rewrite Z.add_0_l, Nat2Z.id, H2.
      destruct (Z.eqb_spec (Z.of_nat (String.length
                  (fst (Str.span (fun x => negb (Ascii.eqb x Views.newline))
                          (Views.message commit))))) (-1)) as [E | E];
        [lia|reflexivity]. }
  split; [exact Heq|]. split; [|now repeat split].
  intros Hsha Hsp Hel. rewrite Heq. unfold singleLine in *.
  rewrite !allChars_append, Hsha.
  fold (singleLine (firstLine (Views.message commit))).
  rewrite firstLine_singleLine.
  destruct (allChars _ (Views.message commit)); [reflexivity|].
  now rewrite allChars_append, Hsp, Hel.
Qed.

Lemma toClipboard_first_line_witness :
  singleLine
    (Views.CommitNode_toClipboard " " "..."
       (Views.mkCommit "1a2b3c4"
          (String "F" (String "i" (String "x"
             (String Views.newline "details")))))) = true.
Proof.
  apply (proj1 (proj2 (toClipboard_first_line " " "..."
                         (Views.mkCommit "1a2b3c4"
                            (String "F" (String "i" (String "x"
                               (String Views.newline "details"))))))));
    reflexivity.
Defined.

(** ** Further facts on schemes, case and separators *)

(** X21.  [getScheme] gives back a scheme that is put in front of a
    colon: for a letter followed by one or more characters among word
    characters, [+], [.] and [-], it returns those characters whatever
    follows the colon, and [maybeUri] holds. *)
Theorem getScheme_of_scheme (c : ascii) (run rest : string) :
  Char.isLetter c = true ->
  run <> EmptyString ->
  allChars Regex.isSchemeChar run = true ->
  getScheme (String c run ++ String Char.colon rest) = Some (String c run)
  /\ maybeUri (String c run ++ String Char.colon rest) = true.
Proof.
  intros Hc Hne Hall. unfold getScheme, maybeUri, Regex.hasSchemeRegex_test.
  now rewrite (hasSchemeRegex_exec_token c run rest Hc Hne Hall).
Qed.

Lemma getScheme_of_scheme_witness :
  getScheme "vscode-vfs://github/owner/repo" = Some "vscode-vfs".
Proof.
  apply (getScheme_of_scheme "v" "scode-vfs" "//github/owner/repo");
    [reflexivity|discriminate|reflexivity].
Defined.

Lemma delimiterMatchThrough_identity (f : ascii -> ascii) (d : ascii)
    (a b : string) (i : nat) :
  delimiterMatchThrough (fun c => c) d a b i ->
  delimiterMatchThrough f d a b i.
Proof.
  intros [Hg Hm]. split; [exact Hg|].
  intros j Hj. destruct (Hm j Hj) as (x & y & Hx & Hy & Hxy).
  exists x, y. split; [exact Hx|]. split; [exact Hy|].
  apply Ascii.eqb_eq in Hxy. subst. apply Ascii.eqb_refl.
Qed.

(** X22.  When lower-casing goes character by character on the two
    strings and leaves the delimiter alone, ignoring case never makes the
    common base shorter: the index found with [ignoreCase] false is at
    most the index found with [ignoreCase] true. *)
Theorem commonBaseIndex_ignoreCase_monotone (isLinux : bool)
    (toLowerCase : string -> string) (f : ascii -> ascii) (a b : string)
    (d : ascii) :
  toLowerCase a = Str.map f a ->
  toLowerCase b = Str.map f b ->
  keeps f d ->
  commonBaseIndex isLinux toLowerCase a b (String d EmptyString) (Some false)
  <= commonBaseIndex isLinux toLowerCase a b (String d EmptyString)
       (Some true).
Proof.
  intros Hfa Hfb Hd.
  destruct a as [|x a']; [simpl; lia|].
  destruct b as [|y b']; [simpl; lia|].
  assert (Ha : String x a' <> EmptyString) by discriminate.
  assert (Hb : String y b' <> EmptyString) by discriminate.
  pose proof (commonBaseIndex_through isLinux toLowerCase (fun c => c) _ _ d
                (Some false) (comparedThrough_exact _ _)
                (comparedThrough_exact _ _) (keeps_identity d) Ha Hb) as He.
  pose proof (commonBaseIndex_through isLinux toLowerCase f _ _ d
                (Some true) Hfa Hfb Hd Ha Hb) as Hf.
  destruct He as [[Hin _] | [-> _]]; [|lia].
  apply (delimiterMatchThrough_identity f) in Hin.
  destruct Hf as [[_ Hmax] | [_ Hnone]].
  - now apply Hmax.
  - now apply Hnone in Hin.
Qed.

Lemma commonBaseIndex_ignoreCase_monotone_witness :
  commonBaseIndex true Str.lowerLatin1 "/Repo/src" "/repo/src" "/"
    (Some false)
  <= commonBaseIndex true Str.lowerLatin1 "/Repo/src" "/repo/src" "/"
       (Some true).
Proof.
  apply (commonBaseIndex_ignoreCase_monotone true Str.lowerLatin1
           Char.toLowerCase "/Repo/src" "/repo/src" Char.slash).
  - reflexivity.
  - reflexivity.
  - exact slash_caseless.
Defined.

Lemma normalizePath_backslashes (isWindows : bool) (p : string) :
  normalizePath isWindows (replaceBackslashes p) = normalizePath isWindows p.
Proof.
  destruct p as [|c r]; [reflexivity|].
  pose proof (replaceBackslashes_noBackslash (String c r)) as H.
  unfold noBackslash in H. unfold normalizePath.
  destruct (replaceBackslashes (String c r)) as [|c' r'] eqn:E;
    [discriminate|].
  now rewrite H.
Qed.

(** X23.  [normalizePath] and [isDescendent] read a backslash as a slash:
    writing the backslashes of a string argument as slashes changes
    neither the normalised path nor the answer of [isDescendent]. *)
Theorem isDescendent_backslashes (isWindows : bool) (p b : string) :
  normalizePath isWindows (replaceBackslashes p) = normalizePath isWindows p
  /\ isDescendent isWindows (OfString (replaceBackslashes p))
       (OfString (replaceBackslashes b))
     = isDescendent isWindows (OfString p) (OfString b)
  /\ (forall u : Uri,
        isDescendent isWindows (OfString (replaceBackslashes p)) (OfUri u)
        = isDescendent isWindows (OfString p) (OfUri u)
        /\ isDescendent isWindows (OfUri u) (OfString (replaceBackslashes b))
           = isDescendent isWindows (OfUri u) (OfString b)).
Proof.
  split; [apply normalizePath_backslashes|].
  unfold isDescendent. now rewrite !normalizePath_backslashes.
Qed.
